(** * Circle app-icon generator

    A shallow embedding of [generate_icons.py]: the [CircleIconGenerator]
    class (gradient synthesis, layered composition, the size catalog with
    its file names, and the icon validator), together with the part of the
    Python runtime and of the Pillow imaging library that the class calls.

    Layout: the Python runtime ([Py]), the imaging library ([PIL]), the
    generator ([Gen]), then the lemmas and the properties of the
    specification. *)

From Stdlib Require Import ZArith Floats Uint63 Lia.
From stdpp Require Import base option list list_numbers strings pretty gmap.

Set Warnings "-inexact-float".
Local Open Scope Z_scope.

(** ** The Python runtime *)

Module Py.

(** Exceptions.  Every constructor stands for a subclass of Python's
    [Exception], the class that [except Exception] intercepts. *)
Inductive exn :=
| ValueError (msg : string)
| ZeroDivisionError (msg : string)
| KeyError (key : string)
| OSError (msg : string)
| OverflowError (msg : string).

(** [str(e)] *)
Definition str_exn (e : exn) : string :=
  match e with
  | ValueError msg | ZeroDivisionError msg | OSError msg
  | OverflowError msg => msg
  | KeyError key => "'" +:+ key +:+ "'"
  end.

(** A computation returns a value or raises. *)
Inductive result (A : Type) :=
| Ok (a : A)
| Raise (e : exn).
Arguments Ok {A} a.
Arguments Raise {A} e.

#[global] Instance result_ret : MRet result := fun A => @Ok A.
#[global] Instance result_bind : MBind result := fun A B f m =>
  match m with
  | Ok a => f a
  | Raise e => Raise e
  end.

(** [for x in l: s = body(s, x)], stopping at the first exception. *)
Fixpoint for_each {A S : Type} (l : list A) (body : S -> A -> result S) (s : S)
  : result S :=
  match l with
  | [] => Ok s
  | x :: l' => s' ← body s x; for_each l' body s'
  end.

(** [range(n)] *)
Definition range (n : Z) : list Z := seqZ 0 n.

(** *** Numbers

    Python [int]s are [Z]; Python [float]s are binary64, the kernel's
    primitive floats, so that every rounding of the program is the one the
    interpreter performs. *)

(** [float(z)]: exact below 2^53, correctly rounded below 2^63. *)
Definition float_of_Z (z : Z) : float :=
  match z with
  | Z0 => PrimFloat.zero
  | Zpos _ => PrimFloat.of_uint63 (Uint63.of_Z z)
  | Zneg p => PrimFloat.opp (PrimFloat.of_uint63 (Uint63.of_Z (Zpos p)))
  end.

(** [int(f)]: truncation toward zero.  On a NaN or an infinity Python
    raises; the embedding returns 0 there. *)
Definition int_of_float (f : float) : Z :=
  match Prim2SF f with
  | S754_finite s m e =>
      let mag := Z.shiftl (Zpos m) e in
      if s then - mag else mag
  | _ => 0
  end.

(** [a / b] on two [int]s (CPython's [long_true_divide]): a zero divisor
    raises, a zero dividend gives [0.0], otherwise the operands, which fit a
    float exactly below 2^53, are divided as floats. *)
Definition truediv (a b : Z) : result float :=
  if b =? 0 then Raise (ZeroDivisionError "division by zero")
  else if a =? 0 then Ok PrimFloat.zero
  else Ok (PrimFloat.div (float_of_Z a) (float_of_Z b)).

(** A value that is an [int] or a [float], as the entries of the size
    catalog are. *)
Inductive num :=
| NInt (z : Z)
| NFloat (f : float).

(** [x * y] *)
Definition num_mul (x y : num) : num :=
  match x, y with
  | NInt a, NInt b => NInt (a * b)
  | NInt a, NFloat g => NFloat (PrimFloat.mul (float_of_Z a) g)
  | NFloat f, NInt b => NFloat (PrimFloat.mul f (float_of_Z b))
  | NFloat f, NFloat g => NFloat (PrimFloat.mul f g)
  end.

(** [int(x)] *)
Definition num_int (x : num) : Z :=
  match x with
  | NInt a => a
  | NFloat f => int_of_float f
  end.

(** [x == y] *)
Definition num_eqb (x y : num) : bool :=
  match x, y with
  | NInt a, NInt b => a =? b
  | NInt a, NFloat g => PrimFloat.eqb (float_of_Z a) g
  | NFloat f, NInt b => PrimFloat.eqb f (float_of_Z b)
  | NFloat f, NFloat g => PrimFloat.eqb f g
  end.

(** [int(f)] with its exceptions: a NaN raises [ValueError], an infinity
    [OverflowError]; otherwise the truncation above. *)
Definition int_checked (f : float) : result Z :=
  match Prim2SF f with
  | S754_nan => Raise (ValueError "cannot convert float NaN to integer")
  | S754_infinity _ =>
      Raise (OverflowError "cannot convert float infinity to integer")
  | _ => Ok (int_of_float f)
  end.

Definition num_int_checked (x : num) : result Z :=
  match x with
  | NInt a => Ok a
  | NFloat f => int_checked f
  end.

(** [int(size * c)] for an [int] size and a [float] literal [c]. *)
Definition int_scaled (size : Z) (c : float) : Z :=
  int_of_float (PrimFloat.mul (float_of_Z size) c).

(** A float that is not a negative finite number: what [int] maps to a
    non-negative integer. *)
Definition sf_nonneg (x : spec_float) : Prop :=
  match x with
  | S754_finite true _ _ => False
  | _ => True
  end.

(** [needle in hay] on strings: [needle] occurs as a substring. *)
Fixpoint str_contains (needle hay : string) : bool :=
  String.prefix needle hay ||
  match hay with
  | EmptyString => false
  | String _ rest => str_contains needle rest
  end.

(** [os.path.join(dir, name)] for a relative [name]. *)
Definition os_path_join (dir name : string) : string :=
  if String.eqb dir "" then name
  else if String.eqb (String.substring (String.length dir - 1) 1 dir) "/"
       then dir +:+ name
       else dir +:+ "/" +:+ name.

(** What the program asks of the operating system: creating the output
    directory ([os.makedirs(path, exist_ok=True)]) and opening a file for
    writing.  Either may raise; the outcome is the system's. *)
Class FileSystem := {
  os_makedirs : string -> result unit;
  open_for_writing : string -> result unit
}.

(** A file system to run the batch with: the empty path cannot be created
    (as [os.makedirs('')] raises [FileNotFoundError]), everything else
    succeeds. *)
Definition plain_fs : FileSystem := {|
  os_makedirs := fun path =>
    if String.eqb path ""
    then Raise (OSError "[Errno 2] No such file or directory: ''")
    else Ok tt;
  open_for_writing := fun _ => Ok tt
|}.

End Py.
Export Py.

(** ** The imaging library (Pillow)

    Canvases are concrete pixel buffers.  Allocation, horizontal lines and
    [paste] are embedded as the library performs them.  Which pixels a
    filled ellipse, rounded rectangle or polygon covers, the blur kernel and
    the per-pixel formula of [alpha_composite] are left to a [Rasterizer]:
    the generator only relies on their being drawn on the canvas it passes. *)

Module PIL.

(** An RGBA pixel; a single-band ([L]) canvas holds [Z] values. *)
Abbreviation pixel := (Z * Z * Z * Z)%type.

Definition alpha (p : pixel) : Z := p.2.

Record image (P : Type) := Image {
  width : Z;
  height : Z;
  rows : list (list P)
}.
Arguments Image {P} _ _ _.
Arguments width {P} _.
Arguments height {P} _.
Arguments rows {P} _.

(** [img.size] *)
Definition im_size {P} (img : image P) : Z * Z := (width img, height img).

(** [Image.new(mode, size, color)]: a negative dimension raises, zero is
    accepted. *)
Definition Image_new {P} (sz : Z * Z) (color : P) : result (image P) :=
  if (sz.1 <? 0) || (sz.2 <? 0)
  then Raise (ValueError "Width and height must be >= 0")
  else Ok (Image sz.1 sz.2
             (replicate (Z.to_nat sz.2) (replicate (Z.to_nat sz.1) color))).

(** [img.getpixel((x, y))] inside the canvas, [None] outside. *)
Definition getpixel {P} (img : image P) (x y : Z) : option P :=
  if (0 <=? x) && (0 <=? y)
  then row ← rows img !! Z.to_nat y; row !! Z.to_nat x
  else None.

(** Rewrite every pixel in place from its coordinates and old value. *)
Definition map_pixels {P Q} (f : Z -> Z -> P -> Q) (img : image P) : image Q :=
  Image (width img) (height img)
    (imap (fun y row => imap (fun x p => f (Z.of_nat x) (Z.of_nat y) p) row)
          (rows img)).

(** [ImageDraw.line([(x0, y), (x1, y)], fill=ink)] with [x0 <= x1]: the
    pixels [x0..x1] of row [y], both ends included, clipped to the canvas.
    The ink is stored as given: its channels are taken to be bytes (the
    library clamps a channel outside 0..255). *)
Definition draw_line {P} (img : image P) (x0 x1 y : Z) (ink : P) : image P :=
  map_pixels
    (fun x' y' p => if (y' =? y) && (x0 <=? x') && (x' <=? x1) then ink else p)
    img.

(** A filled shape: every covered pixel takes the ink (no blending, as for a
    drawing context of the canvas's own mode). *)
Definition draw_shape {P} (cover : Z -> Z -> bool) (ink : P) (img : image P)
  : image P :=
  map_pixels (fun x y p => if cover x y then ink else p) img.

(** [DIV255] and [BLEND] of the library's paste. *)
Definition DIV255 (a : Z) : Z :=
  let tmp := a + 128 in Z.shiftr (Z.shiftr tmp 8 + tmp) 8.

Definition BLEND (mask in1 in2 : Z) : Z :=
  DIV255 (in1 * (255 - mask) + in2 * mask).

Definition blend_pixel (mask : Z) (out inp : pixel) : pixel :=
  let '(r1, g1, b1, a1) := out in
  let '(r2, g2, b2, a2) := inp in
  (BLEND mask r1 r2, BLEND mask g1 g2, BLEND mask b1 b2, BLEND mask a1 a2).

(** The alpha band of an RGBA canvas, which [paste] reads when the mask is
    an RGBA image. *)
Definition alpha_band (img : image pixel) : image Z :=
  map_pixels (fun _ _ p => alpha p) img.

(** [dest.paste(src, box, mask)] with a two-element [box]: the mask must
    have the size of the source; the region is clipped to the destination
    and every pixel in it is blended by the mask's value. *)
Definition paste (dest src : image pixel) (box : Z * Z) (mask : image Z)
  : result (image pixel) :=
  if bool_decide (im_size mask = im_size src)
  then Ok (map_pixels
             (fun x y out =>
                match getpixel src (x - box.1) (y - box.2),
                      getpixel mask (x - box.1) (y - box.2) with
                | Some inp, Some m => blend_pixel m out inp
                | _, _ => out
                end) dest)
  else Raise (ValueError "images do not match").

(** [icon.save(filepath, 'PNG')] on the files written so far: the file is
    opened for writing, an image with an empty side is refused, and
    otherwise the path holds the image (replacing what it held). *)
Definition Image_save `{FileSystem} (icon : image pixel) (filepath : string)
    (files : gmap string (image pixel)) : result (gmap string (image pixel)) :=
  _ ← open_for_writing filepath;
  if (width icon =? 0) || (height icon =? 0)
  then Raise (ValueError "cannot write empty image as PNG")
  else Ok (<[filepath := icon]> files).

(** What the generator takes from the library without fixing it. *)
Class Rasterizer := {
  (** [ellipse([x0, y0, x1, y1])]: is pixel [(x, y)] filled *)
  ellipse_cover : Z * Z * Z * Z -> Z -> Z -> bool;
  (** [rounded_rectangle([(x0, y0), (x1, y1)], radius)] *)
  rounded_rectangle_cover : (Z * Z) * (Z * Z) -> Z -> Z -> Z -> bool;
  (** [polygon(points)] *)
  polygon_cover : list (float * float) -> Z -> Z -> bool;
  (** [GaussianBlur(radius)]: the blurred value at [(x, y)] of a canvas *)
  gaussian_blur : Z -> image pixel -> Z -> Z -> pixel;
  (** [alpha_composite]: a destination pixel under a source pixel *)
  composite_over : pixel -> pixel -> pixel
}.

(** [Image.alpha_composite(im1, im2)]: both canvases must have one size. *)
Definition alpha_composite `{Rasterizer} (im1 im2 : image pixel)
  : result (image pixel) :=
  if bool_decide (im_size im1 = im_size im2)
  then Ok (map_pixels
             (fun x y d =>
                match getpixel im2 x y with
                | Some s => composite_over d s
                | None => d
                end) im1)
  else Raise (ValueError "images do not match").

(** [img.filter(ImageFilter.GaussianBlur(radius))]: a canvas of the same
    size. *)
Definition filter_GaussianBlur `{Rasterizer} (radius : Z) (img : image pixel)
  : image pixel :=
  map_pixels (fun x y _ => gaussian_blur radius img x y) img.

(** A canvas is well formed when its buffer has the declared shape. *)
Definition wf {P} (img : image P) : Prop :=
  0 <= width img /\ 0 <= height img /\
  length (rows img) = Z.to_nat (height img) /\
  Forall (fun row => length row = Z.to_nat (width img)) (rows img).

(** A well-formed square canvas of side [n]. *)
Definition square {P} (n : Z) (img : image P) : Prop :=
  im_size img = (n, n) /\ wf img.

(** A rasterizer to run the generator with: a shape covers its bounding
    box, a polygon nothing, the blur is the identity and compositing
    replaces the destination wherever the source is not transparent. *)
Definition box_rasterizer : Rasterizer := {|
  ellipse_cover := fun '(x0, y0, x1, y1) x y =>
    (x0 <=? x) && (x <=? x1) && (y0 <=? y) && (y <=? y1);
  rounded_rectangle_cover := fun '((x0, y0), (x1, y1)) _ x y =>
    (x0 <=? x) && (x <=? x1) && (y0 <=? y) && (y <=? y1);
  polygon_cover := fun _ _ _ => false;
  gaussian_blur := fun _ img x y => default (0, 0, 0, 0) (getpixel img x y);
  composite_over := fun d s => if alpha s =? 0 then d else s
|}.

End PIL.
Export PIL.

(** ** The generator: class [CircleIconGenerator] *)

Module Gen.

(** A colour of the palette: a 3-tuple or a 4-tuple of channels. *)
Inductive color :=
| RGB (r g b : Z)
| RGBA (r g b a : Z).

(** [c[0]], [c[1]], [c[2]] *)
Definition c0 (c : color) : Z := match c with RGB r _ _ | RGBA r _ _ _ => r end.
Definition c1 (c : color) : Z := match c with RGB _ g _ | RGBA _ g _ _ => g end.
Definition c2 (c : color) : Z := match c with RGB _ _ b | RGBA _ _ b _ => b end.

(** The ink a drawing context makes of a [fill] on an RGBA canvas: a
    3-tuple is opaque. *)
Definition ink_of_color (c : color) : pixel :=
  match c with
  | RGB r g b => (r, g, b, 255)
  | RGBA r g b a => (r, g, b, a)
  end.

(** The object's attributes. *)
Record CircleIconGenerator := {
  colors : gmap string color;
  icon_sizes : list (num * num * Z)
}.

(** [__init__] *)
Definition init : CircleIconGenerator := {|
  colors := list_to_map [
    ("primary_blue", RGB 0 122 255);
    ("secondary_blue", RGB 0 89 204);
    ("accent_purple", RGB 128 0 255);
    ("background_white", RGB 255 255 255);
    ("shadow_gray", RGBA 0 0 0 25);
    ("highlight_white", RGBA 255 255 255 77)
  ];
  icon_sizes := [
    (NInt 20, NInt 20, 1); (NInt 20, NInt 20, 2); (NInt 20, NInt 20, 3);
    (NInt 29, NInt 29, 1); (NInt 29, NInt 29, 2); (NInt 29, NInt 29, 3);
    (NInt 40, NInt 40, 1); (NInt 40, NInt 40, 2); (NInt 40, NInt 40, 3);
    (NInt 60, NInt 60, 1); (NInt 60, NInt 60, 2); (NInt 60, NInt 60, 3);
    (NInt 76, NInt 76, 1); (NInt 76, NInt 76, 2);
    (NFloat 83.5%float, NFloat 83.5%float, 2);
    (NInt 1024, NInt 1024, 1)
  ]
|}.

(** [self.colors[key]] *)
Definition getitem (self : CircleIconGenerator) (key : string) : result color :=
  match colors self !! key with
  | Some c => Ok c
  | None => Raise (KeyError key)
  end.

(** [int(a * (1 - ratio) + b * ratio)] for [int] channels [a], [b]. *)
Definition interpolate (a b : Z) (ratio : float) : Z :=
  int_of_float
    (PrimFloat.add (PrimFloat.mul (float_of_Z a) (PrimFloat.sub 1%float ratio))
                   (PrimFloat.mul (float_of_Z b) ratio)).

(** The body of the gradient loop: one row. *)
Definition gradient_row (size : Z) (start_color end_color : color)
    (image : image pixel) (y : Z) : result (PIL.image pixel) :=
  ratio ← truediv y size;
  let r := interpolate (c0 start_color) (c0 end_color) ratio in
  let g := interpolate (c1 start_color) (c1 end_color) ratio in
  let b := interpolate (c2 start_color) (c2 end_color) ratio in
  Ok (draw_line image 0 size y (r, g, b, 255)).

Definition create_gradient_background (self : CircleIconGenerator) (size : Z)
    (start_color end_color : color) : result (image pixel) :=
  image ← Image_new (size, size) (0, 0, 0, 0);
  for_each (range size) (gradient_row size start_color end_color) image.

Definition create_checkmark_path (self : CircleIconGenerator) (x y size : Z)
  : list (float * float) :=
  let width := size in
  let height := size in
  let at_ (o : Z) (extent : Z) (c : float) : float :=
    PrimFloat.add (float_of_Z o) (PrimFloat.mul (float_of_Z extent) c) in
  [ (at_ x width 0.2%float, at_ y height 0.5%float);
    (at_ x width 0.4%float, at_ y height 0.7%float);
    (at_ x width 0.8%float, at_ y height 0.3%float) ].

Section with_rasterizer.
Context `{Rasterizer}.

Definition create_highlight_overlay (self : CircleIconGenerator) (size : Z)
  : result (image pixel) :=
  image ← Image_new (size, size) (0, 0, 0, 0);
  let highlight_size := int_scaled size 0.8%float in
  let highlight_x := int_scaled size 0.1%float in
  let highlight_y := int_scaled size 0.1%float in
  highlight_white ← getitem self "highlight_white";
  Ok (draw_shape
        (ellipse_cover (highlight_x, highlight_y,
                        highlight_x + highlight_size,
                        highlight_y + highlight_size))
        (ink_of_color highlight_white) image).

Definition create_shadow (self : CircleIconGenerator) (size : Z)
  : result (image pixel) :=
  let shadow_size := int_scaled size 1.1%float in
  let shadow_offset := int_scaled size 0.02%float in
  image ← Image_new (shadow_size, shadow_size) (0, 0, 0, 0);
  shadow_gray ← getitem self "shadow_gray";
  let image :=
    draw_shape (ellipse_cover (0, 0, shadow_size, shadow_size))
               (ink_of_color shadow_gray) image in
  Ok (filter_GaussianBlur 2 image).

(** The inner layer of step 4: the gradient the method renders at
    [inner_circle_size] from its two 4-tuples. *)
Definition inner_gradient (self : CircleIconGenerator) (size : Z)
  : result (image pixel) :=
  create_gradient_background self (int_scaled size 0.4%float)
    (RGBA 0 122 255 25) (RGBA 128 0 255 25).

(** [create_circle_with_checkmark] up to and including the highlight: the
    canvas named [image] when the method reaches [# Add shadow]. *)
Definition draw_icon_layers (self : CircleIconGenerator) (size : Z)
  : result (image pixel) :=
  let corner_radius := int_scaled size 0.22%float in
  let main_circle_size := int_scaled size 0.6%float in
  let inner_circle_size := int_scaled size 0.4%float in
  let checkmark_size := int_scaled size 0.25%float in
  image ← Image_new (size, size) (0, 0, 0, 0);
  primary_blue ← getitem self "primary_blue";
  secondary_blue ← getitem self "secondary_blue";
  bg_image ← create_gradient_background self size primary_blue secondary_blue;
  mask ← Image_new (size, size) 0;
  let mask :=
    draw_shape (rounded_rectangle_cover ((0, 0), (size, size)) corner_radius)
               255 mask in
  image ← paste image bg_image (0, 0) mask;
  let circle_x := (size - main_circle_size) `div` 2 in
  let circle_y := (size - main_circle_size) `div` 2 in
  background_white ← getitem self "background_white";
  let image :=
    draw_shape (ellipse_cover (circle_x, circle_y,
                               circle_x + main_circle_size,
                               circle_y + main_circle_size))
               (ink_of_color background_white) image in
  let inner_x := (size - inner_circle_size) `div` 2 in
  let inner_y := (size - inner_circle_size) `div` 2 in
  inner_gradient ← inner_gradient self size;
  image ← paste image inner_gradient (inner_x, inner_y) (alpha_band inner_gradient);
  let checkmark_x := (size - checkmark_size) `div` 2 in
  let checkmark_y := (size - checkmark_size) `div` 2 in
  let checkmark_bg_size := int_scaled size 0.3%float in
  let checkmark_bg_x := (size - checkmark_bg_size) `div` 2 in
  let checkmark_bg_y := (size - checkmark_bg_size) `div` 2 in
  background_white ← getitem self "background_white";
  let image :=
    draw_shape (ellipse_cover (checkmark_bg_x, checkmark_bg_y,
                               checkmark_bg_x + checkmark_bg_size,
                               checkmark_bg_y + checkmark_bg_size))
               (ink_of_color background_white) image in
  let checkmark_path :=
    create_checkmark_path self checkmark_x checkmark_y checkmark_size in
  primary_blue ← getitem self "primary_blue";
  let image :=
    draw_shape (polygon_cover checkmark_path) (ink_of_color primary_blue) image in
  highlight ← create_highlight_overlay self size;
  alpha_composite image highlight.

Definition create_circle_with_checkmark (self : CircleIconGenerator) (size : Z)
  : result (image pixel) :=
  image ← draw_icon_layers self size;
  shadow ← create_shadow self size;
  final_image ← Image_new (size, size) (0, 0, 0, 0);
  final_image ← paste final_image shadow (0, 0) (alpha_band shadow);
  final_image ← paste final_image image (0, 0) (alpha_band image);
  Ok final_image.

(** The loop body of [generate_all_icons]: the pixel size and the file name
    of one catalog entry. *)
Definition actual_size (width : num) (scale : Z) : Z :=
  num_int (num_mul width (NInt scale)).

Definition icon_filename (width : num) (scale : Z) : string :=
  let filename :=
    if 1 <? scale
    then "AppIcon-" +:+ pretty (num_int width) +:+ "@" +:+ pretty scale +:+ "x.png"
    else "AppIcon-" +:+ pretty (num_int width) +:+ ".png" in
  if num_eqb width (NInt 1024) then "AppIcon-1024.png" else filename.

(** One turn of the loop of [generate_all_icons]: the two [int(...)] of the
    pixel size and of the file name, the composition at that size, and the
    save under that name. *)
Definition generate_icon {fs : FileSystem} (self : CircleIconGenerator)
    (output_dir : string) (files : gmap string (image pixel))
    (entry : num * num * Z) : result (gmap string (image pixel)) :=
  let '(width, height, scale) := entry in
  actual_size ← num_int_checked (num_mul width (NInt scale));
  _ ← num_int_checked width;
  let filename := icon_filename width scale in
  icon ← create_circle_with_checkmark self actual_size;
  let filepath := os_path_join output_dir filename in
  Image_save icon filepath files.

(** [generate_all_icons]: the output directory is created, then every
    catalog entry is generated in order; the files written are a map from
    path to image. *)
Definition generate_all_icons {fs : FileSystem} (self : CircleIconGenerator)
    (output_dir : string) (files : gmap string (image pixel))
  : result (gmap string (image pixel)) :=
  _ ← os_makedirs output_dir;
  for_each (icon_sizes self) (generate_icon self output_dir) files.

End with_rasterizer.

(** What [Image.open] gives the validator: the size and the format of the
    decoded file. *)
Record opened_image := {
  img_size : Z * Z;
  img_format : string
}.

Section validator.
(** Opening and decoding a path: the file system's answer. *)
Variable Image_open : string -> result opened_image.

Definition validate_icon (self : CircleIconGenerator) (image_path : string)
  : result (bool * string) :=
  let body : result (bool * string) :=
    img ← Image_open image_path;
    let '(width, height) := img_size img in
    if negb (width =? height)
    then Ok (false, "Icon must be square")
    else if (width <? 1024) && str_contains "1024" image_path
    then Ok (false, "App Store icon must be at least 1024x1024")
    else if negb (String.eqb (img_format img) "PNG")
    then Ok (false, "Icon must be PNG format")
    else Ok (true, "Icon is valid") in
  match body with
  | Ok r => Ok r
  | Raise e => Ok (false, "Error validating icon: " +:+ str_exn e)
  end.

End validator.

End Gen.
Export Gen.

(** ** Vocabulary of the specification *)

Module Spec.

Definition red (p : pixel) : Z := p.1.1.1.
Definition green (p : pixel) : Z := p.1.1.2.
Definition blue (p : pixel) : Z := p.1.2.

(** A colour of 8-bit channels. *)
Definition eight_bit (c : color) : Prop :=
  0 <= c0 c <= 255 /\ 0 <= c1 c <= 255 /\ 0 <= c2 c <= 255.

(** [y / size] for a row [y] of a canvas of side [size <> 0]. *)
Definition row_ratio (y size : Z) : float :=
  if y =? 0 then PrimFloat.zero
  else PrimFloat.div (float_of_Z y) (float_of_Z size).

(** The pixel of a gradient row: the three interpolated channels, opaque. *)
Definition gradient_ink (A B : color) (ratio : float) : pixel :=
  (interpolate (c0 A) (c0 B) ratio,
   interpolate (c1 A) (c1 B) ratio,
   interpolate (c2 A) (c2 B) ratio,
   255).

(** A pixel equals a colour within [tol] on each of the three channels. *)
Definition close_to (tol : Z) (p : pixel) (c : color) : Prop :=
  Z.abs (red p - c0 c) <= tol /\
  Z.abs (green p - c1 c) <= tol /\
  Z.abs (blue p - c2 c) <= tol.



(** Pixel [(x, y)] (the unit square at that corner) meets the disk of
    diameter [d] inscribed in the [d]-sided square at the origin: its point
    nearest to the centre is within the radius.  Lengths are doubled to stay
    in the integers. *)
Definition nearest (d v : Z) : Z := Z.max (2 * v) (Z.min d (2 * v + 2)).

Definition pixel_meets_disk (d x y : Z) : bool :=
  (nearest d x - d) ^ 2 + (nearest d y - d) ^ 2 <=? d ^ 2.

(** A path names the store icon: the text 1024 occurs in it. *)
Definition names_1024 (image_path : string) : Prop :=
  str_contains "1024" image_path = true.

(** Every layer side of the composer, the overlay and the shadow is the
    floor of its decimal fraction of [size]. *)
Definition exact_sides (size : Z) : bool :=
  (int_scaled size 0.22%float =? (22 * size) `div` 100) &&
  (int_scaled size 0.6%float =? (6 * size) `div` 10) &&
  (int_scaled size 0.4%float =? (4 * size) `div` 10) &&
  (int_scaled size 0.25%float =? size `div` 4) &&
  (int_scaled size 0.3%float =? (3 * size) `div` 10) &&
  (int_scaled size 0.8%float =? (8 * size) `div` 10) &&
  (int_scaled size 0.1%float =? size `div` 10) &&
  (int_scaled size 1.1%float =? (11 * size) `div` 10) &&
  (int_scaled size 0.02%float =? (2 * size) `div` 100).

(** The path and the pixel size of a catalog entry. *)
Definition entry_path (output_dir : string) (entry : num * num * Z) : string :=
  os_path_join output_dir (icon_filename entry.1.1 entry.2).

Definition entry_size (entry : num * num * Z) : Z :=
  actual_size entry.1.1 entry.2.

(** The image the composer returns at a size (the empty canvas where it
    raises). *)
Definition rendered `{Rasterizer} (self : CircleIconGenerator) (size : Z)
  : image pixel :=
  match create_circle_with_checkmark self size with
  | Ok icon => icon
  | Raise _ => Image 0 0 []
  end.

(** The file system gives back what was saved: a path that holds an image
    opens as a PNG of that image's size. *)
Definition reads_back (files : gmap string (image pixel))
    (Image_open : string -> result opened_image) : Prop :=
  forall path img, files !! path = Some img ->
    Image_open path = Ok {| img_size := im_size img; img_format := "PNG" |}.

(** The layers of the composition at one pixel, bottom to top: the gradient
    through the rounded mask, the main circle, the inner gradient, the badge
    circle, the checkmark, and the highlight composited over them. *)
Definition layer_stack `{Rasterizer} (self : CircleIconGenerator) (size : Z)
    (bg inner : image pixel) (x y : Z) : pixel :=
  let main := int_scaled size 0.6%float in
  let inner_side := int_scaled size 0.4%float in
  let check := int_scaled size 0.25%float in
  let badge := int_scaled size 0.3%float in
  let hl := int_scaled size 0.8%float in
  let hl0 := int_scaled size 0.1%float in
  let c := (size - main) `div` 2 in
  let i0 := (size - inner_side) `div` 2 in
  let k := (size - check) `div` 2 in
  let b0 := (size - badge) `div` 2 in
  let p : pixel := (0, 0, 0, 0) in
  let p :=
    match getpixel bg x y with
    | Some g =>
        blend_pixel
          (if rounded_rectangle_cover ((0, 0), (size, size))
                (int_scaled size 0.22%float) x y then 255 else 0) p g
    | None => p
    end in
  let p := if ellipse_cover (c, c, c + main, c + main) x y
           then (255, 255, 255, 255) else p in
  let p :=
    match getpixel inner (x - i0) (y - i0) with
    | Some g => blend_pixel (alpha g) p g
    | None => p
    end in
  let p := if ellipse_cover (b0, b0, b0 + badge, b0 + badge) x y
           then (255, 255, 255, 255) else p in
  let p := if polygon_cover (create_checkmark_path self k k check) x y
           then (0, 122, 255, 255) else p in
  composite_over p
    (if ellipse_cover (hl0, hl0, hl0 + hl, hl0 + hl) x y
     then (255, 255, 255, 77) else (0, 0, 0, 0)).

(** A pixel lies between two pixels, channel by channel. *)
Definition pixel_between (lo hi p : pixel) : bool :=
  (red lo <=? red p) && (red p <=? red hi) &&
  (green lo <=? green p) && (green p <=? green hi) &&
  (blue lo <=? blue p) && (blue p <=? blue hi) &&
  (alpha lo <=? alpha p) && (alpha p <=? alpha hi).

(** Every row of the gradient from [A] to [B] at [size] is inked between
    [lo] and [hi]. *)
Definition gradient_between (A B : color) (lo hi : pixel) (size : Z) : bool :=
  forallb (fun y => pixel_between lo hi (gradient_ink A B (row_ratio y size)))
          (seqZ 0 size).

(** [needle] occurs in [hay]: some text before it, some text after. *)
Definition occurs (needle hay : string) : Prop :=
  exists before after, hay = before +:+ needle +:+ after.

(** The last component of a path: what follows its last slash. *)
Fixpoint file_name_from (acc path : string) : string :=
  match path with
  | EmptyString => acc
  | String c rest =>
      if String.eqb (String c "") "/" then file_name_from "" rest
      else file_name_from (acc +:+ String c "") rest
  end.

Definition file_name (path : string) : string := file_name_from "" path.



End Spec.
Export Spec.

(** ** Canvases: shape and pixel lookup *)

Section canvas_lemmas.
Context {P Q : Type}.
Implicit Types (img : image P) (x y : Z).

Lemma getpixel_map_pixels (f : Z -> Z -> P -> Q) img x y :
  getpixel (map_pixels f img) x y = f x y <$> getpixel img x y.
Proof.
  unfold getpixel, map_pixels; simpl.
  destruct ((0 <=? x) && (0 <=? y)) eqn:Hxy; [|done].
  apply andb_prop in Hxy as [Hx Hy].
  apply Z.leb_le in Hx. apply Z.leb_le in Hy.
  rewrite list_lookup_imap.
  destruct (rows img !! Z.to_nat y) as [row|]; simpl; [|done].
  rewrite list_lookup_imap. by rewrite !Z2Nat.id.
Qed.

Lemma wf_map_pixels (f : Z -> Z -> P -> Q) img : wf img -> wf (map_pixels f img).
Proof.
  intros (Hw & Hh & Hlen & Hrows). unfold wf, map_pixels; simpl.
  repeat split; try done.
  - by rewrite length_imap.
  - apply Forall_forall. intros row Hin.
    apply list_elem_of_lookup in Hin as [i Hi].
    rewrite list_lookup_imap in Hi.
    destruct (rows img !! i) as [row0|] eqn:Hrow0; simplify_eq/=.
    rewrite length_imap.
    rewrite Forall_forall in Hrows. apply Hrows.
    apply list_elem_of_lookup. eauto.
Qed.

Lemma getpixel_wf_Some img x y :
  wf img -> 0 <= x < width img -> 0 <= y < height img ->
  is_Some (getpixel img x y).
Proof.
  intros (Hw & Hh & Hlen & Hrows) Hx Hy. unfold getpixel.
  replace ((0 <=? x) && (0 <=? y)) with true
    by (symmetry; apply andb_true_intro; split; apply Z.leb_le; lia).
  destruct (lookup_lt_is_Some_2 (rows img) (Z.to_nat y)) as [row Hrow]; [lia|].
  rewrite Hrow; simpl.
  apply lookup_lt_is_Some_2.
  rewrite Forall_forall in Hrows.
  rewrite (Hrows row); [lia|].
  apply list_elem_of_lookup. eauto.
Qed.

Lemma getpixel_wf_inv img x y p :
  wf img -> getpixel img x y = Some p ->
  0 <= x < width img /\ 0 <= y < height img.
Proof.
  intros (Hw & Hh & Hlen & Hrows). unfold getpixel.
  destruct ((0 <=? x) && (0 <=? y)) eqn:Hxy; [|done].
  apply andb_prop in Hxy as [Hx Hy].
  apply Z.leb_le in Hx. apply Z.leb_le in Hy.
  destruct (rows img !! Z.to_nat y) as [row|] eqn:Hrow; simpl; [|done].
  intros Hp.
  apply lookup_lt_Some in Hp. pose proof (lookup_lt_Some _ _ _ Hrow) as Hlt.
  rewrite Forall_forall in Hrows.
  rewrite (Hrows row) in Hp by (apply list_elem_of_lookup; eauto).
  lia.
Qed.

Lemma Image_new_Ok (w h : Z) (c : P) :
  0 <= w -> 0 <= h ->
  exists img, Image_new (w, h) c = Ok img /\
    width img = w /\ height img = h /\ wf img /\
    forall x y, 0 <= x < w -> 0 <= y < h -> getpixel img x y = Some c.
Proof.
  intros Hw Hh. unfold Image_new; simpl.
  replace ((w <? 0) || (h <? 0)) with false
    by (symmetry; apply orb_false_intro; apply Z.ltb_ge; lia).
  eexists; split; [done|]. simpl.
  split; [done|]. split; [done|]. split.
  - unfold wf; simpl. split; [done|]. split; [done|]. split.
    + by rewrite length_replicate.
    + apply Forall_forall. intros row Hin.
      apply elem_of_replicate in Hin as [-> _]. by rewrite length_replicate.
  - intros x y Hx Hy. unfold getpixel; simpl.
    replace ((0 <=? x) && (0 <=? y)) with true
      by (symmetry; apply andb_true_intro; split; apply Z.leb_le; lia).
    rewrite lookup_replicate_2 by lia. simpl.
    by rewrite lookup_replicate_2 by lia.
Qed.

Lemma Image_new_negative (w h : Z) (c : P) :
  w < 0 \/ h < 0 ->
  Image_new (w, h) c = Raise (ValueError "Width and height must be >= 0").
Proof.
  intros Hneg. unfold Image_new; simpl.
  replace ((w <? 0) || (h <? 0)) with true; [done|].
  symmetry. apply orb_true_iff. rewrite !Z.ltb_lt. done.
Qed.

End canvas_lemmas.

(** ** The result monad and loops *)

Lemma bind_Ok {A B} (m : result A) (f : A -> result B) (a : A) :
  m = Ok a -> (m ≫= f) = f a.
Proof. by intros ->. Qed.

Lemma truediv_Ok (y size : Z) :
  size <> 0 -> truediv y size = Ok (row_ratio y size).
Proof.
  intros Hsize. unfold truediv, row_ratio.
  destruct (size =? 0) eqn:Hz; [apply Z.eqb_eq in Hz; lia|].
  by destruct (y =? 0).
Qed.

(** ** The gradient *)

Section gradient.
Variables (size : Z) (A B : color).
Hypothesis size_nonzero : size <> 0.

Lemma gradient_row_Ok (img : image pixel) (y : Z) :
  gradient_row size A B img y =
  Ok (draw_line img 0 size y (gradient_ink A B (row_ratio y size))).
Proof. unfold gradient_row. by rewrite truediv_Ok. Qed.

(** The loop over a list of rows: the canvas keeps its shape, every row of
    the list is painted with its ink over columns [0..size], and the other
    pixels are left alone. *)
Lemma gradient_loop (l : list Z) (img : image pixel) :
  exists img',
    for_each l (gradient_row size A B) img = Ok img' /\
    width img' = width img /\ height img' = height img /\
    (wf img -> wf img') /\
    forall x y p, getpixel img x y = Some p ->
      getpixel img' x y =
      Some (if bool_decide (y ∈ l) && (x <=? size)
            then gradient_ink A B (row_ratio y size) else p).
Proof.
  revert img. induction l as [|y0 l IH]; intros img.
  - exists img. split; [done|]. split; [done|]. split; [done|]. split; [done|].
    intros x y p ->. by rewrite bool_decide_eq_false_2 by set_solver.
  - simpl. rewrite gradient_row_Ok. simpl.
    destruct (IH (draw_line img 0 size y0 (gradient_ink A B (row_ratio y0 size))))
      as (img' & Hrun & Hw & Hh & Hwf & Hpix).
    exists img'. split; [done|]. split; [done|]. split; [done|]. split.
    { intros Hi. apply Hwf. by apply wf_map_pixels. }
    intros x y p Hp.
    assert (0 <= x) as Hx.
    { unfold getpixel in Hp. destruct ((0 <=? x) && (0 <=? y)) eqn:E; [|done].
      apply andb_prop in E as [E _]. by apply Z.leb_le in E. }
    erewrite Hpix; last first.
    { unfold draw_line. rewrite getpixel_map_pixels, Hp. done. }
    f_equal. simpl.
    destruct (decide (y = y0)) as [->|Hne].
    + rewrite Z.eqb_refl. replace (0 <=? x) with true by (symmetry; by apply Z.leb_le).
      simpl. rewrite (bool_decide_eq_true_2 (y0 ∈ y0 :: l))
        by (apply elem_of_cons; auto). simpl.
      by destruct (x <=? size), (bool_decide (y0 ∈ l)).
    + replace (y =? y0) with false by (symmetry; by apply Z.eqb_neq). simpl.
      destruct (decide (y ∈ l)) as [Hin|Hnin].
      * rewrite (bool_decide_eq_true_2 (y ∈ l)) by done.
        by rewrite (bool_decide_eq_true_2 (y ∈ y0 :: l))
          by (apply elem_of_cons; auto).
      * rewrite (bool_decide_eq_false_2 (y ∈ l)) by done.
        by rewrite (bool_decide_eq_false_2 (y ∈ y0 :: l))
          by (by intros [?|?]%elem_of_cons).
Qed.

End gradient.

(** [create_gradient_background] on a positive size: a well-formed square
    canvas whose row [y] is one ink, the interpolation at [y / size]. *)
Lemma create_gradient_background_Ok self (size : Z) (A B : color) :
  0 < size ->
  exists img,
    create_gradient_background self size A B = Ok img /\
    width img = size /\ height img = size /\ wf img /\
    forall x y, 0 <= x < size -> 0 <= y < size ->
      getpixel img x y = Some (gradient_ink A B (row_ratio y size)).
Proof.
  intros Hsize. unfold create_gradient_background.
  destruct (Image_new_Ok (P:=pixel) size size (0, 0, 0, 0))
    as (img0 & Hnew & Hw0 & Hh0 & Hwf0 & Hpix0); [lia..|].
  rewrite Hnew. simpl.
  destruct (gradient_loop size A B ltac:(lia) (range size) img0)
    as (img & Hrun & Hw & Hh & Hwf & Hpix).
  exists img. split; [done|]. split; [congruence|]. split; [congruence|].
  split; [auto|].
  intros x y Hx Hy. rewrite (Hpix x y (0, 0, 0, 0)) by auto.
  f_equal. unfold range.
  rewrite bool_decide_eq_true_2 by (apply elem_of_seqZ; lia).
  by replace (x <=? size) with true by (symmetry; apply Z.leb_le; lia).
Qed.

(** On a size of zero the loop has no row and the canvas is empty. *)
Lemma create_gradient_background_zero self (A B : color) :
  create_gradient_background self 0 A B = Ok (Image 0 0 []).
Proof. reflexivity. Qed.

Lemma create_gradient_background_negative self (size : Z) (A B : color) :
  size < 0 ->
  create_gradient_background self size A B =
  Raise (ValueError "Width and height must be >= 0").
Proof.
  intros Hneg. unfold create_gradient_background.
  rewrite Image_new_negative by lia. done.
Qed.

(** ** Floating point: signs and the first row *)

Lemma int_of_float_nonneg (f : float) :
  sf_nonneg (Prim2SF f) -> 0 <= int_of_float f.
Proof.
  unfold int_of_float. destruct (Prim2SF f) as [s|s| |s m e]; simpl; try lia.
  destruct s; [intros []|intros _].
  apply Z.shiftl_nonneg. lia.
Qed.

Lemma binary_round_aux_sign (sx : bool) (mx ex : Z) (lx : location) :
  match binary_round_aux prec emax sx mx ex lx with
  | S754_finite s _ _ => s = sx
  | _ => True
  end.
Proof.
  unfold binary_round_aux.
  destruct (shr_fexp prec emax mx ex lx) as [mrs' e'].
  destruct (shr_fexp prec emax _ e' loc_Exact) as [mrs'' e''].
  destruct (shr_m mrs''); try done.
  by destruct (e'' <=? emax - prec)%Z.
Qed.

Lemma binary_round_sign (sx : bool) (mx : positive) (ex : Z) :
  match binary_round prec emax sx mx ex with
  | S754_finite s _ _ => s = sx
  | _ => True
  end.
Proof.
  unfold binary_round. destruct (shl_align _ _ _) as [mz ez].
  apply binary_round_aux_sign.
Qed.

Lemma float_of_Z_nonneg (z : Z) : 0 <= z -> sf_nonneg (Prim2SF (float_of_Z z)).
Proof.
  intros Hz. destruct z as [|p|p]; [done| |lia].
  unfold float_of_Z. rewrite FloatAxioms.of_uint63_spec.
  pose proof (Uint63.to_Z_bounded (Uint63.of_Z (Z.pos p))) as Hb.
  unfold binary_normalize.
  destruct (Uint63.to_Z (Uint63.of_Z (Z.pos p))) as [|m|m]; [done| |lia].
  pose proof (binary_round_sign false m 0) as Hs.
  destruct (binary_round prec emax false m 0) as [s|s| |s m' e']; try done.
  by subst s.
Qed.

Lemma mul_nonneg (x y : float) :
  sf_nonneg (Prim2SF x) -> sf_nonneg (Prim2SF y) ->
  sf_nonneg (Prim2SF (PrimFloat.mul x y)).
Proof.
  rewrite FloatAxioms.mul_spec. unfold SF64mul, SFmul.
  destruct (Prim2SF x) as [sx|sx| |sx mx ex], (Prim2SF y) as [sy|sy| |sy my ey];
    try done.
  destruct sx; [intros []|]. destruct sy; [intros _ []|]. intros _ _. simpl.
  pose proof (binary_round_aux_sign false (Z.pos (mx * my)) (ex + ey) loc_Exact) as Hs.
  destruct (binary_round_aux _ _ _ _ _ _) as [s|s| |s m' e']; try done.
  by subst s.
Qed.

(** [int(size * c)] is not negative for a size and a factor that are not. *)
Lemma int_scaled_nonneg (size : Z) (c : float) :
  0 <= size -> sf_nonneg (Prim2SF c) -> 0 <= int_scaled size c.
Proof.
  intros Hsize Hc. unfold int_scaled.
  apply int_of_float_nonneg, mul_nonneg; [by apply float_of_Z_nonneg|done].
Qed.

(** At ratio [0.0] the interpolation returns the start channel: checked on
    every pair of 8-bit channels. *)
Lemma interpolate_zero_table :
  forallb (fun a => forallb (fun b => interpolate a b PrimFloat.zero =? a)
                            (seqZ 0 256))
          (seqZ 0 256) = true.
Proof. vm_compute. reflexivity. Qed.

Lemma interpolate_zero (a b : Z) :
  0 <= a <= 255 -> 0 <= b <= 255 -> interpolate a b PrimFloat.zero = a.
Proof.
  intros Ha Hb. pose proof interpolate_zero_table as Ht.
  rewrite forallb_forall in Ht.
  specialize (Ht a). rewrite <- list_elem_of_In, elem_of_seqZ in Ht.
  specialize (Ht ltac:(lia)). rewrite forallb_forall in Ht.
  specialize (Ht b). rewrite <- list_elem_of_In, elem_of_seqZ in Ht.
  apply Z.eqb_eq, Ht. lia.
Qed.

(** ** Square canvases through the library's operations *)

Lemma square_width {P} (n : Z) (img : image P) : square n img -> width img = n.
Proof. intros [Hsz _]. unfold im_size in Hsz. congruence. Qed.

Lemma square_height {P} (n : Z) (img : image P) : square n img -> height img = n.
Proof. intros [Hsz _]. unfold im_size in Hsz. congruence. Qed.

Lemma square_map_pixels {P Q} (f : Z -> Z -> P -> Q) (n : Z) (img : image P) :
  square n img -> square n (map_pixels f img).
Proof. intros [Hsz Hwf]. split; [done|by apply wf_map_pixels]. Qed.

Lemma square_draw_shape {P} (cover : Z -> Z -> bool) (ink : P) (n : Z) img :
  square n img -> square n (draw_shape cover ink img).
Proof. apply square_map_pixels. Qed.

Lemma square_alpha_band (n : Z) (img : image pixel) :
  square n img -> square n (alpha_band img).
Proof. apply square_map_pixels. Qed.

Lemma square_getpixel {P} (n : Z) (img : image P) (x y : Z) :
  square n img -> 0 <= x < n -> 0 <= y < n -> is_Some (getpixel img x y).
Proof.
  intros Hsq Hx Hy. pose proof (square_width _ _ Hsq). pose proof (square_height _ _ Hsq).
  destruct Hsq as [_ Hwf]. apply getpixel_wf_Some; [done|lia..].
Qed.

Lemma Image_new_square {P} (n : Z) (c : P) :
  0 <= n ->
  exists img, Image_new (n, n) c = Ok img /\ square n img /\
    forall x y, 0 <= x < n -> 0 <= y < n -> getpixel img x y = Some c.
Proof.
  intros Hn. destruct (Image_new_Ok n n c) as (img & Hnew & Hw & Hh & Hwf & Hpix);
    [done..|].
  exists img. split; [done|]. split; [|done].
  split; [|done]. unfold im_size. congruence.
Qed.

Lemma getpixel_alpha_band (img : image pixel) (x y : Z) :
  getpixel (alpha_band img) x y = alpha <$> getpixel img x y.
Proof. unfold alpha_band. apply getpixel_map_pixels. Qed.

(** Pasting a canvas through its own alpha band: the call succeeds, the
    destination keeps its shape, and each of its pixels that the source
    reaches is blended with the source pixel by that pixel's alpha. *)
Lemma paste_own_alpha (n : Z) (dest src : image pixel) (box : Z * Z) :
  square n dest ->
  exists out,
    paste dest src box (alpha_band src) = Ok out /\ square n out /\
    forall x y,
      getpixel out x y =
      (fun o => match getpixel src (x - box.1) (y - box.2) with
                | Some i => blend_pixel (alpha i) o i
                | None => o
                end) <$> getpixel dest x y.
Proof.
  intros Hdest. unfold paste.
  rewrite bool_decide_eq_true_2 by done.
  eexists. split; [done|]. split; [by apply square_map_pixels|].
  intros x y. rewrite getpixel_map_pixels. rewrite getpixel_alpha_band.
  destruct (getpixel dest x y) as [o|]; simpl; [|done].
  by destruct (getpixel src (x - box.1) (y - box.2)).
Qed.

Lemma paste_square (n : Z) (dest src : image pixel) (box : Z * Z) (mask : image Z) :
  square n dest -> im_size mask = im_size src ->
  exists out, paste dest src box mask = Ok out /\ square n out.
Proof.
  intros Hdest Hsz. unfold paste. rewrite bool_decide_eq_true_2 by done.
  eexists. split; [done|]. by apply square_map_pixels.
Qed.

Lemma alpha_composite_square `{Rasterizer} (n : Z) (im1 im2 : image pixel) :
  square n im1 -> square n im2 ->
  exists out, alpha_composite im1 im2 = Ok out /\ square n out.
Proof.
  intros H1 H2. unfold alpha_composite.
  rewrite bool_decide_eq_true_2 by (destruct H1 as [-> _], H2 as [-> _]; done).
  eexists. split; [done|]. by apply square_map_pixels.
Qed.

(** The gradient on any size that is not negative: a square canvas. *)
Lemma create_gradient_background_square self (size : Z) (A B : color) :
  0 <= size ->
  exists img, create_gradient_background self size A B = Ok img /\ square size img.
Proof.
  intros Hsize. destruct (decide (size = 0)) as [->|Hnz].
  - rewrite create_gradient_background_zero. eexists. split; [done|].
    split; [done|]. unfold wf; simpl. repeat split; try lia; try done.
  - destruct (create_gradient_background_Ok self size A B) as (img & Hrun & Hw & Hh & Hwf & _);
      [lia|].
    exists img. split; [done|]. split; [|done]. unfold im_size. congruence.
Qed.

(** ** The palette *)

Lemma getitem_palette self (key : string) (c : color) :
  colors self = colors init -> colors init !! key = Some c ->
  getitem self key = Ok c.
Proof. intros Hpal Hkey. unfold getitem. by rewrite Hpal, Hkey. Qed.

Lemma palette_primary_blue : colors init !! "primary_blue" = Some (RGB 0 122 255).
Proof. vm_compute. reflexivity. Qed.

Lemma palette_secondary_blue : colors init !! "secondary_blue" = Some (RGB 0 89 204).
Proof. vm_compute. reflexivity. Qed.

Lemma palette_background_white :
  colors init !! "background_white" = Some (RGB 255 255 255).
Proof. vm_compute. reflexivity. Qed.

Lemma palette_shadow_gray : colors init !! "shadow_gray" = Some (RGBA 0 0 0 25).
Proof. vm_compute. reflexivity. Qed.

Lemma palette_highlight_white :
  colors init !! "highlight_white" = Some (RGBA 255 255 255 77).
Proof. vm_compute. reflexivity. Qed.

(** ** The composition *)

Section composition.
Context `{Rasterizer}.
Variable self : CircleIconGenerator.
Hypothesis palette : colors self = colors init.

Local Ltac step_with lem :=
  let img := fresh "img" in
  let Hrun := fresh "Hrun" in
  let Hsq := fresh "Hsq" in
  destruct lem as (img & Hrun & Hsq);
  match goal with
  | Hr : _ = Ok _ |- _ => rewrite (bind_Ok _ _ _ Hr); cbv beta
  end.

Local Ltac lookup_with lem :=
  rewrite (bind_Ok _ _ _ (getitem_palette self _ _ palette lem)); cbv beta.

Lemma create_highlight_overlay_square (size : Z) :
  0 <= size ->
  exists img, create_highlight_overlay self size = Ok img /\ square size img.
Proof.
  intros Hsize. unfold create_highlight_overlay.
  destruct (Image_new_square (P:=pixel) size (0, 0, 0, 0) Hsize) as (img & Hnew & Hsq & _).
  rewrite (bind_Ok _ _ _ Hnew); cbv beta zeta.
  lookup_with palette_highlight_white.
  eexists. split; [done|]. by apply square_draw_shape.
Qed.

Lemma create_shadow_square (size : Z) :
  0 <= size ->
  exists img, create_shadow self size = Ok img /\
    square (int_scaled size 1.1%float) img.
Proof.
  intros Hsize. unfold create_shadow. cbv zeta.
  assert (0 <= int_scaled size 1.1%float) as Hs by (by apply int_scaled_nonneg).
  destruct (Image_new_square (P:=pixel) _ (0, 0, 0, 0) Hs) as (img & Hnew & Hsq & _).
  rewrite (bind_Ok _ _ _ Hnew); cbv beta.
  lookup_with palette_shadow_gray.
  eexists. split; [done|].
  unfold filter_GaussianBlur. by apply square_map_pixels, square_draw_shape.
Qed.

Lemma inner_gradient_square (size : Z) :
  0 <= size ->
  exists img, inner_gradient self size = Ok img /\
    square (int_scaled size 0.4%float) img.
Proof.
  intros Hsize. unfold inner_gradient.
  apply create_gradient_background_square. by apply int_scaled_nonneg.
Qed.

Lemma draw_icon_layers_square (size : Z) :
  0 <= size ->
  exists img, draw_icon_layers self size = Ok img /\ square size img.
Proof.
  intros Hsize. unfold draw_icon_layers. cbv zeta.
  destruct (Image_new_square (P:=pixel) size (0, 0, 0, 0) Hsize) as (image & Hnew & Hsq & _).
  rewrite (bind_Ok _ _ _ Hnew); cbv beta.
  lookup_with palette_primary_blue.
  lookup_with palette_secondary_blue.
  step_with (create_gradient_background_square self size (RGB 0 122 255) (RGB 0 89 204) Hsize).
  destruct (Image_new_square (P:=Z) size 0 Hsize) as (mask & Hmask & Hmsq & _).
  rewrite (bind_Ok _ _ _ Hmask); cbv beta.
  assert (im_size (draw_shape (rounded_rectangle_cover (0, 0, (size, size))
                                 (int_scaled size 0.22%float)) 255 mask)
          = im_size img) as Hsz.
  { destruct Hsq0 as [-> _]. by destruct Hmsq as [<- _]. }
  step_with (paste_square size image img (0, 0) _ Hsq Hsz).
  lookup_with palette_background_white.
  step_with (inner_gradient_square size Hsize).
  match goal with
  | |- context [paste ?d img1 ?b (alpha_band img1)] =>
      destruct (paste_own_alpha size d img1 b) as (pasted & Hpasted & Hpsq & _);
        [by apply square_draw_shape|]
  end.
  rewrite (bind_Ok _ _ _ Hpasted); cbv beta.
  lookup_with palette_background_white.
  lookup_with palette_primary_blue.
  step_with (create_highlight_overlay_square size Hsize).
  apply alpha_composite_square; [|done].
  by do 2 apply square_draw_shape.
Qed.

(** The whole method on a size that is not negative: the layers, the shadow
    and the final canvas, which has the requested side and holds, at every
    pixel, the shadow and then the layers pasted at the origin. *)
Lemma create_circle_with_checkmark_Ok (size : Z) :
  0 <= size ->
  exists image shadow final,
    draw_icon_layers self size = Ok image /\ square size image /\
    create_shadow self size = Ok shadow /\
    square (int_scaled size 1.1%float) shadow /\
    create_circle_with_checkmark self size = Ok final /\ square size final /\
    forall x y, 0 <= x < size -> 0 <= y < size ->
      exists i, getpixel image x y = Some i /\
        getpixel final x y =
        Some (blend_pixel (alpha i)
                (match getpixel shadow x y with
                 | Some s => blend_pixel (alpha s) (0, 0, 0, 0) s
                 | None => (0, 0, 0, 0)
                 end) i).
Proof.
  intros Hsize. unfold create_circle_with_checkmark.
  destruct (draw_icon_layers_square size Hsize) as (image & Himage & Hisq).
  destruct (create_shadow_square size Hsize) as (shadow & Hshadow & Hssq).
  destruct (Image_new_square (P:=pixel) size (0, 0, 0, 0) Hsize)
    as (blank & Hnew & Hbsq & Hbpix).
  destruct (paste_own_alpha size blank shadow (0, 0) Hbsq) as (f1 & Hf1 & Hsq1 & Hpix1).
  destruct (paste_own_alpha size f1 image (0, 0) Hsq1) as (f2 & Hf2 & Hsq2 & Hpix2).
  exists image, shadow, f2.
  rewrite Himage, Hshadow; simpl. rewrite Hnew; simpl. rewrite Hf1; simpl.
  rewrite Hf2; simpl.
  repeat (split; [done|]).
  intros x y Hx Hy.
  destruct (square_getpixel size image x y Hisq Hx Hy) as [i Hi].
  exists i. split; [done|].
  rewrite Hpix2, Hpix1, (Hbpix x y Hx Hy). simpl.
  rewrite !Z.sub_0_r, Hi. done.
Qed.

End composition.

(** * Properties of the specification *)

(** ** The gradient renderer *)



(** C3, as stated, fails: on a 2 x 2 gradient from black to white the last
    row is the midpoint 127, not the end colour within 1. *)
Lemma gradient_last_row_not_end_color :
  exists img p,
    create_gradient_background init 2 (RGB 0 0 0) (RGB 255 255 255) = Ok img /\
    im_size img = (2, 2) /\
    getpixel img 0 (2 - 1) = Some p /\
    p = (127, 127, 127, 255) /\
    ~ close_to 1 p (RGB 255 255 255).
Proof.
  eexists _, _. split; [vm_compute; reflexivity|].
  split; [reflexivity|]. split; [reflexivity|]. split; [reflexivity|].
  unfold close_to, red; simpl. lia.
Qed.

(** C3, amended.  For every size > 0 and 8-bit colours A, B,
    [create_gradient_background] returns a canvas of exactly size x size
    whose row 0 equals A exactly; its last row is the interpolation at ratio
    [(size - 1) / size], which is B only in the limit of large sizes. *)
Theorem gradient_first_and_last_row self (size : Z) (A B : color) :
  0 < size -> eight_bit A -> eight_bit B ->
  exists img,
    create_gradient_background self size A B = Ok img /\
    width img = size /\ height img = size /\
    forall x, 0 <= x < size ->
      getpixel img x 0 = Some (c0 A, c1 A, c2 A, 255) /\
      getpixel img x (size - 1) =
      Some (gradient_ink A B (row_ratio (size - 1) size)).
Proof.
  intros Hsize (HA0 & HA1 & HA2) (HB0 & HB1 & HB2).
  destruct (create_gradient_background_Ok self size A B Hsize)
    as (img & Hrun & Hw & Hh & Hwf & Hpix).
  exists img. repeat (split; [done|]).
  intros x Hx. split.
  - rewrite Hpix by lia. unfold gradient_ink, row_ratio. simpl.
    by rewrite !interpolate_zero.
  - by rewrite Hpix by lia.
Qed.

Lemma gradient_first_and_last_row_witness :
  0 < 2 /\ eight_bit (RGB 0 0 0) /\ eight_bit (RGB 255 255 255) /\
  exists img,
    create_gradient_background init 2 (RGB 0 0 0) (RGB 255 255 255) = Ok img /\
    width img = 2 /\ height img = 2 /\
    forall x, 0 <= x < 2 ->
      getpixel img x 0 = Some (0, 0, 0, 255) /\
      getpixel img x (2 - 1) =
      Some (gradient_ink (RGB 0 0 0) (RGB 255 255 255) (row_ratio (2 - 1) 2)).
Proof.
  assert (eight_bit (RGB 0 0 0)) as HA by (unfold eight_bit; simpl; lia).
  assert (eight_bit (RGB 255 255 255)) as HB by (unfold eight_bit; simpl; lia).
  split; [lia|]. split; [exact HA|]. split; [exact HB|].
  apply (gradient_first_and_last_row init 2 (RGB 0 0 0) (RGB 255 255 255));
    [lia|exact HA|exact HB].
Defined.

(** ** Invalid sizes *)

(** C5, as stated, fails at size 0: the gradient renderer returns an empty
    canvas instead of rejecting the size. *)
Lemma gradient_size_zero_accepted :
  create_gradient_background init 0 (RGB 0 122 255) (RGB 0 89 204)
  = Ok (Image 0 0 []).
Proof. reflexivity. Qed.

(** C5, amended.  For every size < 0, [create_gradient_background] and
    [create_circle_with_checkmark] reject the input: the canvas allocation
    raises [ValueError] and no image is returned.  Size 0 is not rejected by
    [create_gradient_background], which returns the empty canvas. *)
Theorem negative_size_rejected `{Rasterizer} self (size : Z) (A B : color) :
  size < 0 ->
  create_gradient_background self size A B
  = Raise (ValueError "Width and height must be >= 0") /\
  create_circle_with_checkmark self size
  = Raise (ValueError "Width and height must be >= 0") /\
  create_gradient_background self 0 A B = Ok (Image 0 0 []).
Proof.
  intros Hneg. split; [by apply create_gradient_background_negative|].
  split; [|reflexivity].
  unfold create_circle_with_checkmark, draw_icon_layers.
  by rewrite Image_new_negative by lia.
Qed.

Lemma negative_size_rejected_witness :
  -1 < 0 /\
  create_gradient_background init (-1) (RGB 0 122 255) (RGB 0 89 204)
  = Raise (ValueError "Width and height must be >= 0") /\
  create_circle_with_checkmark (H:=box_rasterizer) init (-1)
  = Raise (ValueError "Width and height must be >= 0") /\
  create_gradient_background init 0 (RGB 0 122 255) (RGB 0 89 204)
  = Ok (Image 0 0 []).
Proof.
  split; [lia|].
  apply (@negative_size_rejected box_rasterizer init (-1)
           (RGB 0 122 255) (RGB 0 89 204)).
  lia.
Defined.

(** ** The icon composer *)

(** C1, as stated, fails: at pixel size 10 the shadow layer is 11 x 11 and
    the returned image is 10 x 10, neither the shadow's size nor larger than
    the pixel size. *)
Lemma icon_not_shadow_sized :
  exists final shadow,
    create_circle_with_checkmark (H:=box_rasterizer) init 10 = Ok final /\
    create_shadow (H:=box_rasterizer) init 10 = Ok shadow /\
    im_size shadow = (11, 11) /\
    im_size final = (10, 10) /\
    im_size final <> im_size shadow /\
    ~ 10 < width final.
Proof.
  eexists _, _. split; [vm_compute; reflexivity|].
  split; [vm_compute; reflexivity|].
  split; [reflexivity|]. split; [reflexivity|].
  split; [discriminate|]. simpl. lia.
Qed.

(** C1, amended.  For every pixel size > 0, step 8 renders the shadow layer
    on a canvas of side [int(pixelSize * 1.1)] and returns a fresh canvas of
    exactly pixelSize x pixelSize: the shadow and then the composition are
    pasted onto it at the origin, each through its own alpha, so that every
    returned pixel is the composition's pixel blended over the shadow's
    pixel at the same coordinates (the shadow is cropped, not centred
    around the composition). *)
Theorem icon_has_requested_size `{Rasterizer} self (size : Z) :
  0 < size -> colors self = colors init ->
  exists image shadow final,
    draw_icon_layers self size = Ok image /\
    create_shadow self size = Ok shadow /\
    create_circle_with_checkmark self size = Ok final /\
    im_size image = (size, size) /\
    im_size shadow = (int_scaled size 1.1%float, int_scaled size 1.1%float) /\
    im_size final = (size, size) /\
    forall x y, 0 <= x < size -> 0 <= y < size ->
      exists i, getpixel image x y = Some i /\
        getpixel final x y =
        Some (blend_pixel (alpha i)
                (match getpixel shadow x y with
                 | Some s => blend_pixel (alpha s) (0, 0, 0, 0) s
                 | None => (0, 0, 0, 0)
                 end) i).
Proof.
  intros Hsize Hpal.
  destruct (create_circle_with_checkmark_Ok self Hpal size ltac:(lia))
    as (image & shadow & final & Hi & [Hisz _] & Hs & [Hssz _] & Hf & [Hfsz _] & Hpix).
  exists image, shadow, final. repeat (split; [done|]). done.
Qed.

Lemma icon_has_requested_size_witness :
  0 < 10 /\ colors init = colors init /\
  exists image shadow final,
    draw_icon_layers (H:=box_rasterizer) init 10 = Ok image /\
    create_shadow (H:=box_rasterizer) init 10 = Ok shadow /\
    create_circle_with_checkmark (H:=box_rasterizer) init 10 = Ok final /\
    im_size image = (10, 10) /\
    im_size shadow = (int_scaled 10 1.1%float, int_scaled 10 1.1%float) /\
    im_size final = (10, 10) /\
    forall x y, 0 <= x < 10 -> 0 <= y < 10 ->
      exists i, getpixel image x y = Some i /\
        getpixel final x y =
        Some (blend_pixel (alpha i)
                (match getpixel shadow x y with
                 | Some s => blend_pixel (alpha s) (0, 0, 0, 0) s
                 | None => (0, 0, 0, 0)
                 end) i).
Proof.
  split; [lia|]. split; [reflexivity|].
  apply (@icon_has_requested_size box_rasterizer init 10); [lia|reflexivity].
Defined.

(** What [paste] does with an opaque source pixel of 8-bit channels: the
    destination pixel is replaced. *)
Lemma BLEND_opaque (out inp : Z) : 0 <= inp <= 255 -> BLEND 255 out inp = inp.
Proof.
  intros Hinp. unfold BLEND, DIV255. rewrite Z.sub_diag, Z.mul_0_r, Z.add_0_l.
  rewrite !Z.shiftr_div_pow2 by lia. change (2 ^ 8) with 256.
  Z.div_mod_to_equations. lia.
Qed.

(** The inner layer is opaque wherever the gradient has a row: on every size
    whose inner side is positive, all its pixels have alpha 255. *)
Lemma inner_gradient_opaque self (size : Z) :
  0 < int_scaled size 0.4%float ->
  exists g,
    inner_gradient self size = Ok g /\
    square (int_scaled size 0.4%float) g /\
    forall x y, 0 <= x < int_scaled size 0.4%float ->
                0 <= y < int_scaled size 0.4%float ->
      exists p, getpixel g x y = Some p /\ alpha p = 255.
Proof.
  intros Hpos. unfold inner_gradient.
  destruct (create_gradient_background_Ok self _ (RGBA 0 122 255 25)
              (RGBA 128 0 255 25) Hpos) as (g & Hrun & Hw & Hh & Hwf & Hpix).
  exists g. split; [done|]. split.
  { split; [|done]. unfold im_size. congruence. }
  intros x y Hx Hy. eexists. split; [by apply Hpix|done].
Qed.

(** C2, evaluated at pixel size 60.  The layer pasted in step 4 is a
    24 x 24 square every pixel of which is fully opaque, although both
    colours were given with alpha 25; its corner pixel (0, 0) lies outside
    the disk of diameter 24, and pasting the layer at the inner origin
    (18, 18) replaces the canvas pixel there by that opaque corner pixel,
    whatever was drawn below. *)
Theorem inner_layer_opaque_square_at_60 :
  int_scaled 60 0.4%float = 24 /\ (60 - 24) `div` 2 = 18 /\
  exists g,
    inner_gradient init 60 = Ok g /\
    im_size g = (24, 24) /\
    (forall x y, 0 <= x < 24 -> 0 <= y < 24 ->
       exists p, getpixel g x y = Some p /\ alpha p = 255) /\
    getpixel g 0 0 = Some (0, 122, 255, 255) /\
    pixel_meets_disk 24 0 0 = false /\
    forall canvas : image pixel, square 60 canvas ->
      exists out,
        paste canvas g (18, 18) (alpha_band g) = Ok out /\
        getpixel out 18 18 = Some (0, 122, 255, 255).
Proof.
  assert (int_scaled 60 0.4%float = 24) as Hside by (vm_compute; reflexivity).
  split; [done|]. split; [done|].
  destruct (inner_gradient_opaque init 60) as (g & Hrun & [Hsz Hwf] & Hop).
  { rewrite Hside. lia. }
  rewrite Hside in *.
  assert (getpixel g 0 0 = Some (0, 122, 255, 255)) as Hcorner.
  { revert Hrun. unfold inner_gradient. rewrite Hside. intros Hrun.
    destruct (create_gradient_background_Ok init 24 (RGBA 0 122 255 25)
                (RGBA 128 0 255 25) ltac:(lia)) as (g' & Hrun' & _ & _ & _ & Hpix).
    rewrite Hrun in Hrun'. injection Hrun' as <-.
    rewrite Hpix by lia. vm_compute. reflexivity. }
  exists g. split; [done|]. split; [done|]. split; [exact Hop|].
  split; [done|]. split; [vm_compute; reflexivity|].
  intros canvas Hcanvas.
  destruct (paste_own_alpha 60 canvas g (18, 18) Hcanvas) as (out & Hout & _ & Hpix).
  exists out. split; [done|].
  destruct (square_getpixel 60 canvas 18 18 Hcanvas) as [[[[r0 g0] b0] a0] Ho]; [lia..|].
  rewrite Hpix, Ho. cbn [fmap option_fmap option_map fst snd].
  change (18 - 18) with 0. rewrite Hcorner.
  unfold blend_pixel, alpha; cbn [fst snd].
  by rewrite !BLEND_opaque by lia.
Qed.

(** ** The size catalog *)

Local Ltac catalog_cases Hin :=
  apply list_elem_of_In in Hin; simpl in Hin;
  repeat (destruct Hin as [Hin|Hin]; [injection Hin as <- <- <-|]);
  [..|destruct Hin].

(** C6.  A logical size of 1024 is named [AppIcon-1024.png] whatever the
    scale.  Every other integer logical size, and so every such entry of the
    size catalog, is named [AppIcon-{int(logicalSize)}.png] at scale 1 and
    [AppIcon-{int(logicalSize)}@{scale}x.png] at a scale above 1; the entry
    (83.5, 83.5, 2) is named [AppIcon-83@2x.png].  On the catalog, two
    entries of logical size other than 1024 with the same file name have the
    same logical size and scale. *)
Theorem catalog_filenames :
  (forall s, icon_filename (NInt 1024) s = "AppIcon-1024.png") /\
  (forall z s, z <> 1024 ->
     (s = 1 -> icon_filename (NInt z) s = "AppIcon-" +:+ pretty z +:+ ".png") /\
     (1 < s -> icon_filename (NInt z) s =
               "AppIcon-" +:+ pretty z +:+ "@" +:+ pretty s +:+ "x.png")) /\
  (forall w h s, (w, h, s) ∈ icon_sizes init -> w <> NInt 1024 ->
     (s = 1 ->
        icon_filename w s = "AppIcon-" +:+ pretty (num_int w) +:+ ".png") /\
     (1 < s ->
        icon_filename w s =
        "AppIcon-" +:+ pretty (num_int w) +:+ "@" +:+ pretty s +:+ "x.png")) /\
  icon_filename (NFloat 83.5) 2 = "AppIcon-83@2x.png" /\
  (forall w1 h1 s1 w2 h2 s2,
     (w1, h1, s1) ∈ icon_sizes init -> (w2, h2, s2) ∈ icon_sizes init ->
     w1 <> NInt 1024 -> w2 <> NInt 1024 ->
     icon_filename w1 s1 = icon_filename w2 s2 ->
     (w1, s1) = (w2, s2)).
Proof.
  assert (forall w s, num_eqb w (NInt 1024) = false ->
            (s = 1 ->
               icon_filename w s = "AppIcon-" +:+ pretty (num_int w) +:+ ".png") /\
            (1 < s ->
               icon_filename w s =
               "AppIcon-" +:+ pretty (num_int w) +:+ "@" +:+ pretty s +:+ "x.png"))
    as Hrule.
  { intros w s Hne. unfold icon_filename. rewrite Hne. split.
    - by intros ->.
    - intros Hs. by replace (1 <? s) with true by (symmetry; by apply Z.ltb_lt). }
  assert (forall w h s, (w, h, s) ∈ icon_sizes init -> w <> NInt 1024 ->
            num_eqb w (NInt 1024) = false) as Hcat.
  { intros w h s Hin Hne. catalog_cases Hin; first [reflexivity | done]. }
  split; [|split; [|split; [|split; [vm_compute; reflexivity|]]]].
  - intros s. unfold icon_filename. by destruct (1 <? s).
  - intros z s Hz. apply (Hrule (NInt z) s). simpl. by apply Z.eqb_neq.
  - intros w h s Hin Hne. apply Hrule. by apply (Hcat w h s).
  - intros w1 h1 s1 w2 h2 s2 H1 H2 Hn1 Hn2 Hname.
    catalog_cases H1; catalog_cases H2;
      first [ reflexivity
            | vm_compute in Hname; discriminate Hname
            | done ].
Qed.

Lemma catalog_filenames_witness :
  icon_filename (NInt 1024) 2 = "AppIcon-1024.png" /\
  icon_filename (NInt 20) 1 = "AppIcon-20.png" /\
  icon_filename (NInt 20) 2 = "AppIcon-20@2x.png" /\
  icon_filename (NFloat 83.5) 2 = "AppIcon-83@2x.png".
Proof.
  destruct catalog_filenames as (H1024 & Hint & Hcat & _ & _).
  split; [exact (H1024 2)|].
  destruct (Hint 20 1 ltac:(lia)) as [H1x _].
  destruct (Hint 20 2 ltac:(lia)) as [_ H2x].
  split; [exact (H1x eq_refl)|]. split; [exact (H2x eq_refl)|].
  destruct (Hcat (NFloat 83.5) (NFloat 83.5) 2) as [_ Hf];
    [apply list_elem_of_In; simpl; tauto|discriminate|].
  exact (Hf eq_refl).
Defined.







(** ** The validator *)

Section validator_properties.
Variable Image_open : string -> result opened_image.
Variable self : CircleIconGenerator.

Lemma validate_icon_raise (path : string) (e : exn) :
  Image_open path = Raise e ->
  validate_icon Image_open self path
  = Ok (false, "Error validating icon: " +:+ str_exn e).
Proof. intros Hopen. unfold validate_icon. by rewrite Hopen. Qed.

Lemma validate_icon_opened (path : string) (img : opened_image) (w h : Z) :
  Image_open path = Ok img -> img_size img = (w, h) ->
  validate_icon Image_open self path =
  Ok (if negb (w =? h) then (false, "Icon must be square")
      else if (w <? 1024) && str_contains "1024" path
      then (false, "App Store icon must be at least 1024x1024")
      else if negb (String.eqb (img_format img) "PNG")
      then (false, "Icon must be PNG format")
      else (true, "Icon is valid")).
Proof.
  intros Hopen Hsize. unfold validate_icon. rewrite Hopen. simpl. rewrite Hsize.
  destruct (negb (w =? h)); [done|].
  destruct ((w <? 1024) && str_contains "1024" path); [done|].
  by destruct (negb (String.eqb (img_format img) "PNG")).
Qed.

End validator_properties.

Lemma prefix_occurs (n h : string) :
  String.prefix n h = true <-> exists after, h = n +:+ after.
Proof.
  revert n. induction h as [|b h IH]; intros [|a n]; simpl.
  - split; [by exists ""|done].
  - split; [done|]. by intros [after Heq].
  - split; [by exists (String b h)|done].
  - destruct (Ascii.ascii_dec a b) as [->|Hne].
    + rewrite IH. split; intros [after Heq]; exists after; [by rewrite Heq|].
      by injection Heq.
    + split; [done|]. intros [after Heq]. by injection Heq as -> _.
Qed.

Lemma str_contains_occurs (n h : string) :
  str_contains n h = true <-> occurs n h.
Proof.
  unfold occurs. induction h as [|c h IH]; cbn [str_contains].
  - rewrite orb_false_r, prefix_occurs. split.
    + intros [after Heq]. by exists "", after.
    + intros ([|c before] & after & Heq); [by exists after|done].
  - rewrite orb_true_iff, prefix_occurs, IH. split.
    + intros [[after Heq]|(before & after & Heq)].
      * by exists "", after.
      * exists (String c before), after. by rewrite Heq.
    + intros ([|c' before] & after & Heq).
      * left. by exists after.
      * right. injection Heq as -> Heq. by exists before, after.
Qed.

(** C8, as stated, fails: the store-icon rule does not look at the file
    name.  A 20 x 20 PNG named [AppIcon-20.png], whose name does not contain
    1024, under a directory [run-1024] is rejected as a store icon that is
    too small, where rules (a), (b), (c) on the name give a valid file. *)
Lemma store_rule_not_by_file_name :
  file_name "/builds/run-1024/AppIcon-20.png" = "AppIcon-20.png" /\
  ~ occurs "1024" "AppIcon-20.png" /\
  validate_icon (fun _ => Ok {| img_size := (20, 20); img_format := "PNG" |})
    init "/builds/run-1024/AppIcon-20.png"
  = Ok (false, "App Store icon must be at least 1024x1024").
Proof.
  split; [reflexivity|]. split; [|reflexivity].
  rewrite <- str_contains_occurs. vm_compute. discriminate.
Qed.

(** C8, amended.  For every path [validate_icon] returns a (bool, reason)
    pair and never raises.  A file that opens is judged by the rules in
    order: first width = height (else not square); then, if the text 1024
    occurs anywhere in the path string, directories included, width >= 1024
    (else the store icon is too small); then the format must be PNG (else
    wrong format); otherwise it is valid.  An exception raised while opening
    or decoding gives an invalid result that carries the error's message. *)
Theorem validate_icon_rules (Image_open : string -> result opened_image)
    (self : CircleIconGenerator) (path : string) :
  (exists valid reason, validate_icon Image_open self path = Ok (valid, reason)) /\
  (forall e, Image_open path = Raise e ->
     validate_icon Image_open self path
     = Ok (false, "Error validating icon: " +:+ str_exn e)) /\
  (forall img w h, Image_open path = Ok img -> img_size img = (w, h) ->
     (w <> h ->
        validate_icon Image_open self path = Ok (false, "Icon must be square")) /\
     (w = h -> w < 1024 -> occurs "1024" path ->
        validate_icon Image_open self path
        = Ok (false, "App Store icon must be at least 1024x1024")) /\
     (w = h -> 1024 <= w \/ ~ occurs "1024" path -> img_format img <> "PNG" ->
        validate_icon Image_open self path = Ok (false, "Icon must be PNG format")) /\
     (w = h -> 1024 <= w \/ ~ occurs "1024" path -> img_format img = "PNG" ->
        validate_icon Image_open self path = Ok (true, "Icon is valid"))).
Proof.
  assert (forall w, 1024 <= w \/ ~ occurs "1024" path ->
            (w <? 1024) && str_contains "1024" path = false) as Hskip.
  { intros w [Hw|Hn].
    - by replace (w <? 1024) with false by (symmetry; apply Z.ltb_ge; lia).
    - rewrite <- str_contains_occurs in Hn.
      destruct (str_contains "1024" path); [done|]. apply andb_false_r. }
  split; [|split].
  - destruct (Image_open path) as [img|e] eqn:Hopen.
    + destruct (img_size img) as [w h] eqn:Hsize.
      rewrite (validate_icon_opened _ _ _ _ _ _ Hopen Hsize).
      destruct (if negb (w =? h) then _ else _) as [valid reason]. eauto.
    + rewrite (validate_icon_raise _ _ _ _ Hopen). eauto.
  - intros e. apply validate_icon_raise.
  - intros img w h Hopen Hsize.
    rewrite (validate_icon_opened _ _ _ _ _ _ Hopen Hsize).
    split; [|split; [|split]].
    + intros Hne. by replace (w =? h) with false by (symmetry; by apply Z.eqb_neq).
    + intros <- Hw Hn. rewrite Z.eqb_refl. simpl.
      replace (w <? 1024) with true by (symmetry; by apply Z.ltb_lt).
      apply str_contains_occurs in Hn. by rewrite Hn.
    + intros <- Hs Hfmt. rewrite Z.eqb_refl. simpl. rewrite (Hskip w Hs).
      by replace (String.eqb (img_format img) "PNG") with false
        by (symmetry; by apply String.eqb_neq).
    + intros <- Hs Hfmt. rewrite Z.eqb_refl. simpl. rewrite (Hskip w Hs).
      by rewrite Hfmt.
Qed.

Lemma validate_icon_rules_witness :
  validate_icon (fun _ => Raise (OSError "cannot identify image file")) init
    "AppIcon-20.png"
  = Ok (false, "Error validating icon: cannot identify image file") /\
  validate_icon (fun _ => Ok {| img_size := (10, 20); img_format := "PNG" |})
    init "/builds/run-1024/AppIcon-20.png"
  = Ok (false, "Icon must be square") /\
  validate_icon (fun _ => Ok {| img_size := (20, 20); img_format := "PNG" |})
    init "/builds/run-1024/AppIcon-20.png"
  = Ok (false, "App Store icon must be at least 1024x1024") /\
  validate_icon (fun _ => Ok {| img_size := (20, 20); img_format := "JPEG" |})
    init "AppIcon-20.png"
  = Ok (false, "Icon must be PNG format") /\
  validate_icon (fun _ => Ok {| img_size := (1024, 1024); img_format := "PNG" |})
    init "AppIcon-1024.png"
  = Ok (true, "Icon is valid").
Proof.
  assert (occurs "1024" "/builds/run-1024/AppIcon-20.png") as Hdir
    by (by exists "/builds/run-", "/AppIcon-20.png").
  assert (~ occurs "1024" "AppIcon-20.png") as Hname
    by (rewrite <- str_contains_occurs; vm_compute; discriminate).
  split; [|split; [|split; [|split]]].
  - destruct (validate_icon_rules
                (fun _ => Raise (OSError "cannot identify image file")) init
                "AppIcon-20.png") as (_ & Hraise & _).
    exact (Hraise _ eq_refl).
  - destruct (validate_icon_rules
                (fun _ => Ok {| img_size := (10, 20); img_format := "PNG" |}) init
                "/builds/run-1024/AppIcon-20.png") as (_ & _ & Hrules).
    destruct (Hrules _ 10 20 eq_refl eq_refl) as (Hsq & _).
    apply Hsq. lia.
  - destruct (validate_icon_rules
                (fun _ => Ok {| img_size := (20, 20); img_format := "PNG" |}) init
                "/builds/run-1024/AppIcon-20.png") as (_ & _ & Hrules).
    destruct (Hrules _ 20 20 eq_refl eq_refl) as (_ & Hstore & _).
    apply Hstore; [reflexivity|lia|exact Hdir].
  - destruct (validate_icon_rules
                (fun _ => Ok {| img_size := (20, 20); img_format := "JPEG" |}) init
                "AppIcon-20.png") as (_ & _ & Hrules).
    destruct (Hrules _ 20 20 eq_refl eq_refl) as (_ & _ & Hfmt & _).
    apply Hfmt; [reflexivity|right; exact Hname|discriminate].
  - destruct (validate_icon_rules
                (fun _ => Ok {| img_size := (1024, 1024); img_format := "PNG" |}) init
                "AppIcon-1024.png") as (_ & _ & Hrules).
    destruct (Hrules _ 1024 1024 eq_refl eq_refl) as (_ & _ & _ & Hok).
    apply Hok; [reflexivity|left; lia|reflexivity].
Defined.

(** C10, as stated, fails: a file under a path containing 1024 that decodes
    to 10 x 20 (width below 1024) is reported as not square, not as a store
    icon that is too small. *)
Lemma store_rule_after_square_rule :
  names_1024 "icons-1024/AppIcon-20.png" /\ 10 < 1024 /\
  validate_icon (fun _ => Ok {| img_size := (10, 20); img_format := "PNG" |})
    init "icons-1024/AppIcon-20.png"
  = Ok (false, "Icon must be square").
Proof. split; [reflexivity|]. split; [lia|reflexivity]. Qed.

(** C10, amended.  The store-icon rule is triggered by the text 1024
    anywhere in the path string, a directory component included: for every
    path containing it whose image decodes square with width < 1024, the
    result is invalid with the store-icon-too-small reason, even if the file
    is not the 1024 icon. *)
Theorem store_rule_on_any_1024_path (Image_open : string -> result opened_image)
    (self : CircleIconGenerator) (path : string) (img : opened_image) (w : Z) :
  names_1024 path -> Image_open path = Ok img -> img_size img = (w, w) ->
  w < 1024 ->
  validate_icon Image_open self path
  = Ok (false, "App Store icon must be at least 1024x1024").
Proof.
  intros Hn Hopen Hsize Hw.
  rewrite (validate_icon_opened _ _ _ _ _ _ Hopen Hsize).
  rewrite Z.eqb_refl. simpl.
  replace (w <? 1024) with true by (symmetry; by apply Z.ltb_lt).
  unfold names_1024 in Hn. by rewrite Hn.
Qed.

Lemma store_rule_on_any_1024_path_witness :
  names_1024 "icons-1024/AppIcon-20.png" /\ 20 < 1024 /\
  validate_icon (fun _ => Ok {| img_size := (20, 20); img_format := "PNG" |})
    init "icons-1024/AppIcon-20.png"
  = Ok (false, "App Store icon must be at least 1024x1024").
Proof.
  assert (names_1024 "icons-1024/AppIcon-20.png") as Hn by reflexivity.
  assert (20 < 1024) as Hw by lia.
  split; [exact Hn|]. split; [exact Hw|].
  exact (store_rule_on_any_1024_path
           (fun _ => Ok {| img_size := (20, 20); img_format := "PNG" |}) init
           "icons-1024/AppIcon-20.png" _ 20 Hn eq_refl eq_refl Hw).
Defined.

(** ** Determinism *)

(** The composer reads nothing of the generator object but its palette. *)
Lemma create_circle_with_checkmark_palette `{Rasterizer}
    (g1 g2 : CircleIconGenerator) (size : Z) :
  colors g1 = colors g2 ->
  create_circle_with_checkmark g1 size = create_circle_with_checkmark g2 size.
Proof.
  intros Hpal.
  unfold create_circle_with_checkmark, draw_icon_layers, create_shadow,
    create_highlight_overlay, inner_gradient, create_gradient_background,
    create_checkmark_path, getitem.
  by rewrite Hpal.
Qed.

(** C9.  [create_circle_with_checkmark] is deterministic: for every pixel
    size > 0, two invocations with the same pixel size, on generator objects
    as [__init__] builds them, return the same image, equal in its size and
    in every pixel, hence in every byte of its buffer. *)
Theorem create_circle_with_checkmark_deterministic `{Rasterizer}
    (g1 g2 : CircleIconGenerator) (size : Z) :
  0 < size -> colors g1 = colors init -> colors g2 = colors init ->
  exists img,
    create_circle_with_checkmark g1 size = Ok img /\
    create_circle_with_checkmark g2 size = Ok img.
Proof.
  intros Hsize H1 H2.
  destruct (create_circle_with_checkmark_Ok g1 H1 size ltac:(lia))
    as (_ & _ & final & _ & _ & _ & _ & Hfinal & _).
  exists final. split; [done|].
  rewrite <- Hfinal. apply create_circle_with_checkmark_palette. congruence.
Qed.

Lemma create_circle_with_checkmark_deterministic_witness :
  0 < 10 /\
  exists img,
    create_circle_with_checkmark (H:=box_rasterizer) init 10 = Ok img /\
    create_circle_with_checkmark (H:=box_rasterizer)
      {| colors := colors init; icon_sizes := [] |} 10 = Ok img.
Proof.
  split; [lia|].
  apply (@create_circle_with_checkmark_deterministic box_rasterizer init
           {| colors := colors init; icon_sizes := [] |} 10);
    [lia|reflexivity|reflexivity].
Defined.

(** * Further properties of the code *)

(** ** Layer sizes *)

Lemma exact_sides_table : forallb exact_sides (seqZ 0 4097) = true.
Proof. vm_compute. reflexivity. Qed.

(** X1.  For every size from 0 to 4096 the binary64 products of the
    composer land on the right side of every integer: the corner radius,
    the sides of the main circle, inner gradient, checkmark, badge and
    highlight, the highlight offset, the shadow side and the shadow offset
    are the exact floors of 22%, 60%, 40%, 25%, 30%, 80%, 10%, 110% and 2%
    of the size.  So the badge fits in the inner gradient, that in the main
    circle, that in the canvas, and the shadow canvas is at least as large
    as the icon. *)
Theorem layer_sides_exact (size : Z) :
  0 <= size <= 4096 ->
  int_scaled size 0.22%float = (22 * size) `div` 100 /\
  int_scaled size 0.6%float = (6 * size) `div` 10 /\
  int_scaled size 0.4%float = (4 * size) `div` 10 /\
  int_scaled size 0.25%float = size `div` 4 /\
  int_scaled size 0.3%float = (3 * size) `div` 10 /\
  int_scaled size 0.8%float = (8 * size) `div` 10 /\
  int_scaled size 0.1%float = size `div` 10 /\
  int_scaled size 1.1%float = (11 * size) `div` 10 /\
  int_scaled size 0.02%float = (2 * size) `div` 100 /\
  int_scaled size 0.3%float <= int_scaled size 0.4%float
    <= int_scaled size 0.6%float /\
  int_scaled size 0.6%float <= size <= int_scaled size 1.1%float.
Proof.
  intros Hsize. pose proof exact_sides_table as Ht.
  rewrite forallb_forall in Ht. specialize (Ht size).
  rewrite <- list_elem_of_In, elem_of_seqZ in Ht. specialize (Ht ltac:(lia)).
  unfold exact_sides in Ht.
  repeat (apply andb_prop in Ht as [Ht ?]).
  repeat match goal with Hb : (_ =? _) = true |- _ => apply Z.eqb_eq in Hb end.
  repeat (split; [done|]).
  split; split; Z.div_mod_to_equations; lia.
Qed.

Lemma layer_sides_exact_witness :
  0 <= 1024 <= 4096 /\
  int_scaled 1024 0.22%float = 225 /\
  int_scaled 1024 0.4%float = 409 /\
  int_scaled 1024 1.1%float = 1126.
Proof.
  assert (0 <= 1024 <= 4096) as Hb by lia.
  split; [exact Hb|].
  destruct (layer_sides_exact 1024 Hb) as (H22 & _ & H40 & _ & _ & _ & _ & H110 & _).
  split; [exact H22|]. split; [exact H40|exact H110].
Defined.

(** ** The validator accepts only what passes every rule *)

(** X2.  [validate_icon] answers valid exactly when the file opens, is
    square, is a PNG, and is at least 1024 wide or lies under a path that
    does not contain the text 1024; its reason is then [Icon is valid].  It
    never accepts a file that cannot be opened, a non-square image or
    another format. *)
Theorem validate_icon_valid_iff (Image_open : string -> result opened_image)
    (self : CircleIconGenerator) (path reason : string) :
  validate_icon Image_open self path = Ok (true, reason) <->
  reason = "Icon is valid" /\
  exists img w,
    Image_open path = Ok img /\ img_size img = (w, w) /\
    img_format img = "PNG" /\ (1024 <= w \/ ~ names_1024 path).
Proof.
  split.
  - destruct (Image_open path) as [img|e] eqn:Hopen.
    + destruct (img_size img) as [w h] eqn:Hsize.
      rewrite (validate_icon_opened _ _ _ _ _ _ Hopen Hsize).
      destruct (w =? h) eqn:Hwh; cbn [negb]; [|intros [=]].
      apply Z.eqb_eq in Hwh as <-.
      destruct ((w <? 1024) && str_contains "1024" path) eqn:Hstore; [intros [=]|].
      destruct (String.eqb (img_format img) "PNG") eqn:Hfmt; cbn [negb]; [|intros [=]].
      intros [= <-]. split; [done|]. exists img, w.
      split; [done|]. split; [done|]. split; [by apply String.eqb_eq|].
      apply andb_false_iff in Hstore as [Hw|Hn].
      * left. apply Z.ltb_ge in Hw. lia.
      * right. unfold names_1024. by rewrite Hn.
    + rewrite (validate_icon_raise _ _ _ _ Hopen). intros [=].
  - intros (-> & img & w & Hopen & Hsize & Hfmt & Hstore).
    rewrite (validate_icon_opened _ _ _ _ _ _ Hopen Hsize).
    rewrite Z.eqb_refl, Hfmt. cbn [negb].
    replace ((w <? 1024) && str_contains "1024" path) with false; [done|].
    symmetry. apply andb_false_iff. destruct Hstore as [Hw|Hn].
    + left. apply Z.ltb_ge. lia.
    + right. unfold names_1024 in Hn. by destruct (str_contains "1024" path).
Qed.

(** ** Pixels through the library's operations *)

Lemma getpixel_draw_shape {P} (cover : Z -> Z -> bool) (ink : P) (img : image P)
    (x y : Z) :
  getpixel (draw_shape cover ink img) x y =
  (fun p => if cover x y then ink else p) <$> getpixel img x y.
Proof. unfold draw_shape. apply getpixel_map_pixels. Qed.

Lemma paste_eq (dest src : image pixel) (box : Z * Z) (mask : image Z) :
  im_size mask = im_size src ->
  paste dest src box mask =
  Ok (map_pixels
        (fun x y out =>
           match getpixel src (x - box.1) (y - box.2),
                 getpixel mask (x - box.1) (y - box.2) with
           | Some inp, Some m => blend_pixel m out inp
           | _, _ => out
           end) dest).
Proof. intros Hsz. unfold paste. by rewrite bool_decide_eq_true_2. Qed.

Lemma alpha_composite_eq `{Rasterizer} (im1 im2 : image pixel) :
  im_size im1 = im_size im2 ->
  alpha_composite im1 im2 =
  Ok (map_pixels
        (fun x y d => match getpixel im2 x y with
                      | Some s => composite_over d s
                      | None => d
                      end) im1).
Proof. intros Hsz. unfold alpha_composite. by rewrite bool_decide_eq_true_2. Qed.

Lemma bind_Ok_val {A B} (a : A) (f : A -> result B) : (Ok a ≫= f) = f a.
Proof. reflexivity. Qed.

Section overlays.
Context `{Rasterizer}.
Variable self : CircleIconGenerator.
Hypothesis palette : colors self = colors init.

Lemma create_highlight_overlay_pixels (size : Z) :
  0 <= size ->
  exists img,
    create_highlight_overlay self size = Ok img /\ square size img /\
    forall x y, 0 <= x < size -> 0 <= y < size ->
      getpixel img x y =
      Some (if ellipse_cover
                 (int_scaled size 0.1%float, int_scaled size 0.1%float,
                  int_scaled size 0.1%float + int_scaled size 0.8%float,
                  int_scaled size 0.1%float + int_scaled size 0.8%float) x y
            then (255, 255, 255, 77) else (0, 0, 0, 0)).
Proof.
  intros Hsize. unfold create_highlight_overlay.
  destruct (Image_new_square (P:=pixel) size (0, 0, 0, 0) Hsize)
    as (img & Hnew & Hsq & Hpix).
  rewrite (bind_Ok _ _ _ Hnew); cbv beta zeta.
  rewrite (bind_Ok _ _ _ (getitem_palette self _ _ palette palette_highlight_white)).
  eexists. split; [done|]. split; [by apply square_draw_shape|].
  intros x y Hx Hy. rewrite getpixel_draw_shape, (Hpix x y Hx Hy). done.
Qed.

Lemma create_shadow_pixels (size : Z) :
  0 <= size ->
  exists shadow flat,
    create_shadow self size = Ok shadow /\
    square (int_scaled size 1.1%float) shadow /\
    square (int_scaled size 1.1%float) flat /\
    forall x y, 0 <= x < int_scaled size 1.1%float ->
                0 <= y < int_scaled size 1.1%float ->
      getpixel flat x y =
      Some (if ellipse_cover (0, 0, int_scaled size 1.1%float,
                              int_scaled size 1.1%float) x y
            then (0, 0, 0, 25) else (0, 0, 0, 0)) /\
      getpixel shadow x y = Some (gaussian_blur 2 flat x y).
Proof.
  intros Hsize. unfold create_shadow. cbv zeta.
  assert (0 <= int_scaled size 1.1%float) as Hs by (by apply int_scaled_nonneg).
  destruct (Image_new_square (P:=pixel) _ (0, 0, 0, 0) Hs) as (img & Hnew & Hsq & Hpix).
  rewrite (bind_Ok _ _ _ Hnew); cbv beta.
  rewrite (bind_Ok _ _ _ (getitem_palette self _ _ palette palette_shadow_gray)).
  eexists _, _. split; [done|].
  split; [by apply square_map_pixels, square_draw_shape|].
  split; [by apply square_draw_shape|].
  intros x y Hx Hy.
  assert (getpixel
            (draw_shape
               (ellipse_cover (0, 0, int_scaled size 1.1%float,
                               int_scaled size 1.1%float))
               (ink_of_color (RGBA 0 0 0 25)) img) x y =
          Some (if ellipse_cover (0, 0, int_scaled size 1.1%float,
                                  int_scaled size 1.1%float) x y
                then (0, 0, 0, 25) else (0, 0, 0, 0))) as Hflat
    by (by rewrite getpixel_draw_shape, (Hpix x y Hx Hy)).
  split; [exact Hflat|].
  unfold filter_GaussianBlur. rewrite getpixel_map_pixels, Hflat. done.
Qed.

End overlays.

(** X3.  On every size that is not negative the highlight overlay is a
    size x size canvas holding the highlight white (255, 255, 255, 77) on
    the pixels of its ellipse and full transparency elsewhere; the shadow is
    a canvas of side [int(size * 1.1)] each pixel of which is the blur, at
    the fixed radius 2 whatever the size, of a flat canvas holding
    (0, 0, 0, 25) on the pixels of the inscribed ellipse and transparency
    elsewhere.  On a negative size the overlay raises [ValueError]. *)
Theorem overlay_layers `{Rasterizer} (self : CircleIconGenerator) (size : Z) :
  colors self = colors init ->
  (size < 0 ->
     create_highlight_overlay self size
     = Raise (ValueError "Width and height must be >= 0")) /\
  (0 <= size ->
     exists highlight shadow flat,
       create_highlight_overlay self size = Ok highlight /\
       im_size highlight = (size, size) /\
       create_shadow self size = Ok shadow /\
       im_size shadow = (int_scaled size 1.1%float, int_scaled size 1.1%float) /\
       (forall x y, 0 <= x < size -> 0 <= y < size ->
          getpixel highlight x y =
          Some (if ellipse_cover
                     (int_scaled size 0.1%float, int_scaled size 0.1%float,
                      int_scaled size 0.1%float + int_scaled size 0.8%float,
                      int_scaled size 0.1%float + int_scaled size 0.8%float) x y
                then (255, 255, 255, 77) else (0, 0, 0, 0))) /\
       (forall x y, 0 <= x < int_scaled size 1.1%float ->
                    0 <= y < int_scaled size 1.1%float ->
          getpixel flat x y =
          Some (if ellipse_cover (0, 0, int_scaled size 1.1%float,
                                  int_scaled size 1.1%float) x y
                then (0, 0, 0, 25) else (0, 0, 0, 0)) /\
          getpixel shadow x y = Some (gaussian_blur 2 flat x y))).
Proof.
  intros Hpal. split.
  - intros Hneg. unfold create_highlight_overlay.
    by rewrite Image_new_negative by lia.
  - intros Hsize.
    destruct (create_highlight_overlay_pixels self Hpal size Hsize)
      as (highlight & Hh & [Hhsz _] & Hhpix).
    destruct (create_shadow_pixels self Hpal size Hsize)
      as (shadow & flat & Hs & [Hssz _] & _ & Hspix).
    exists highlight, shadow, flat. repeat (split; [done|]). done.
Qed.

Lemma overlay_layers_witness :
  create_highlight_overlay (H:=box_rasterizer) init (-1)
  = Raise (ValueError "Width and height must be >= 0") /\
  exists highlight shadow,
    create_highlight_overlay (H:=box_rasterizer) init 10 = Ok highlight /\
    im_size highlight = (10, 10) /\
    create_shadow (H:=box_rasterizer) init 10 = Ok shadow /\
    im_size shadow = (int_scaled 10 1.1%float, int_scaled 10 1.1%float).
Proof.
  destruct (@overlay_layers box_rasterizer init (-1) eq_refl) as [Hneg _].
  destruct (@overlay_layers box_rasterizer init 10 eq_refl) as [_ Hpos].
  split; [apply Hneg; lia|].
  destruct Hpos as (highlight & shadow & flat & Hh & Hhsz & Hs & Hssz & _); [lia|].
  exists highlight, shadow. done.
Defined.

(** ** The composition, pixel by pixel *)

Section layer_pixels.
Context `{Rasterizer}.
Variable self : CircleIconGenerator.
Hypothesis palette : colors self = colors init.

Lemma draw_icon_layers_pixels (size : Z) :
  0 <= size ->
  exists image bg inner,
    draw_icon_layers self size = Ok image /\ square size image /\
    create_gradient_background self size (RGB 0 122 255) (RGB 0 89 204) = Ok bg /\
    square size bg /\
    inner_gradient self size = Ok inner /\
    square (int_scaled size 0.4%float) inner /\
    forall x y, 0 <= x < size -> 0 <= y < size ->
      getpixel image x y = Some (layer_stack self size bg inner x y).
Proof.
  intros Hsize.
  destruct (draw_icon_layers_square self palette size Hsize) as (image & Hrun & Hsq).
  destruct (create_gradient_background_square self size (RGB 0 122 255)
              (RGB 0 89 204) Hsize) as (bg & Hbg & Hbgsq).
  destruct (inner_gradient_square self size Hsize) as (inner & Hinner & Hinsq).
  exists image, bg, inner. repeat (split; [done|]).
  intros x y Hx Hy. revert Hrun. unfold draw_icon_layers. cbv zeta.
  destruct (Image_new_square (P:=pixel) size (0, 0, 0, 0) Hsize)
    as (blank & Hnew & Hbsq & Hbpix).
  rewrite (bind_Ok _ _ _ Hnew); cbv beta.
  rewrite (bind_Ok _ _ _ (getitem_palette self _ _ palette palette_primary_blue)).
  rewrite (bind_Ok _ _ _ (getitem_palette self _ _ palette palette_secondary_blue)).
  rewrite (bind_Ok _ _ _ Hbg).
  destruct (Image_new_square (P:=Z) size 0 Hsize) as (mask & Hmask & Hmsq & Hmpix).
  rewrite (bind_Ok _ _ _ Hmask).
  rewrite paste_eq by (destruct Hbgsq as [-> _]; by destruct Hmsq as [<- _]).
  rewrite bind_Ok_val.
  rewrite (bind_Ok _ _ _ (getitem_palette self _ _ palette palette_background_white)).
  rewrite (bind_Ok _ _ _ Hinner).
  rewrite paste_eq by done.
  rewrite bind_Ok_val.
  rewrite (bind_Ok _ _ _ (getitem_palette self _ _ palette palette_background_white)).
  rewrite (bind_Ok _ _ _ (getitem_palette self _ _ palette palette_primary_blue)).
  destruct (create_highlight_overlay_pixels self palette size Hsize)
    as (highlight & Hhl & Hhsq & Hhpix).
  rewrite (bind_Ok _ _ _ Hhl).
  rewrite alpha_composite_eq by (destruct Hhsq as [-> _]; by destruct Hbsq as [<- _]).
  intros [= <-].
  rewrite getpixel_map_pixels, !getpixel_draw_shape, getpixel_map_pixels,
    getpixel_draw_shape, getpixel_map_pixels, getpixel_draw_shape.
  cbn [fst snd]. rewrite !Z.sub_0_r.
  rewrite (Hbpix x y Hx Hy), (Hmpix x y Hx Hy), (Hhpix x y Hx Hy).
  rewrite getpixel_alpha_band.
  cbn [fmap option_fmap option_map].
  unfold layer_stack. cbv zeta. cbn [ink_of_color].
  destruct (square_getpixel size bg x y Hbgsq Hx Hy) as [g Hg]. rewrite Hg.
  cbn [fmap option_fmap option_map].
  by destruct (getpixel inner _ _).
Qed.

End layer_pixels.

(** X4.  On every size that is not negative the canvas the composer builds
    before the shadow is, pixel by pixel, the stack of its layers in source
    order: the blue gradient blended through the rounded mask onto
    transparency, the white main circle, the inner gradient pasted at its
    centred origin, the white badge circle, the checkmark polygon in primary
    blue, and the highlight overlay composited over the result. *)
Theorem composition_layer_stack `{Rasterizer} (self : CircleIconGenerator)
    (size : Z) :
  0 <= size -> colors self = colors init ->
  exists image bg inner,
    draw_icon_layers self size = Ok image /\
    im_size image = (size, size) /\
    create_gradient_background self size (RGB 0 122 255) (RGB 0 89 204) = Ok bg /\
    inner_gradient self size = Ok inner /\
    forall x y, 0 <= x < size -> 0 <= y < size ->
      getpixel image x y = Some (layer_stack self size bg inner x y).
Proof.
  intros Hsize Hpal.
  destruct (draw_icon_layers_pixels self Hpal size Hsize)
    as (image & bg & inner & Hrun & [Hsz _] & Hbg & _ & Hin & _ & Hpix).
  exists image, bg, inner. repeat (split; [done|]). done.
Qed.

Lemma composition_layer_stack_witness :
  0 <= 10 /\ colors init = colors init /\
  exists image bg inner,
    draw_icon_layers (H:=box_rasterizer) init 10 = Ok image /\
    im_size image = (10, 10) /\
    create_gradient_background init 10 (RGB 0 122 255) (RGB 0 89 204) = Ok bg /\
    inner_gradient init 10 = Ok inner /\
    forall x y, 0 <= x < 10 -> 0 <= y < 10 ->
      getpixel image x y =
      Some (layer_stack (H:=box_rasterizer) init 10 bg inner x y).
Proof.
  split; [lia|]. split; [reflexivity|].
  apply (@composition_layer_stack box_rasterizer init 10); [lia|reflexivity].
Defined.

Lemma blend_pixel_masked_out (g : pixel) :
  blend_pixel 0 (0, 0, 0, 0) g = (0, 0, 0, 0).
Proof.
  destruct g as [[[r gr] b] a]. unfold blend_pixel, BLEND.
  by rewrite !Z.mul_0_r.
Qed.

(** X5.  Which layer shows at a pixel of the composition.  A pixel the
    checkmark polygon covers is primary blue under the highlight, whatever
    lies below.  A pixel the badge circle covers and the checkmark does not
    is white under the highlight, so the inner gradient never shows there.
    A pixel that no shape covers and that lies outside the inner gradient's
    square is transparent under the highlight. *)
Theorem composition_visible_layer `{Rasterizer} (self : CircleIconGenerator)
    (size x y : Z) :
  colors self = colors init ->
  0 <= x < size -> 0 <= y < size ->
  let check := int_scaled size 0.25%float in
  let badge := int_scaled size 0.3%float in
  let main := int_scaled size 0.6%float in
  let inner := int_scaled size 0.4%float in
  let k := (size - check) `div` 2 in
  let b0 := (size - badge) `div` 2 in
  let c := (size - main) `div` 2 in
  let i0 := (size - inner) `div` 2 in
  let h0 := int_scaled size 0.1%float in
  let hl := int_scaled size 0.8%float in
  let highlight : pixel :=
    if ellipse_cover (h0, h0, h0 + hl, h0 + hl) x y
    then (255, 255, 255, 77) else (0, 0, 0, 0) in
  let on_check := polygon_cover (create_checkmark_path self k k check) x y in
  let on_badge := ellipse_cover (b0, b0, b0 + badge, b0 + badge) x y in
  let on_main := ellipse_cover (c, c, c + main, c + main) x y in
  let on_base :=
    rounded_rectangle_cover ((0, 0), (size, size)) (int_scaled size 0.22%float)
      x y in
  exists image,
    draw_icon_layers self size = Ok image /\
    (on_check = true ->
       getpixel image x y = Some (composite_over (0, 122, 255, 255) highlight)) /\
    (on_check = false -> on_badge = true ->
       getpixel image x y = Some (composite_over (255, 255, 255, 255) highlight)) /\
    (on_check = false -> on_badge = false -> on_main = false ->
     on_base = false ->
     ~ (i0 <= x < i0 + inner /\ i0 <= y < i0 + inner) ->
       getpixel image x y = Some (composite_over (0, 0, 0, 0) highlight)).
Proof.
  intros Hpal Hx Hy. cbv zeta.
  destruct (draw_icon_layers_pixels self Hpal size ltac:(lia))
    as (image & bg & inner & Hrun & _ & _ & _ & _ & Hinsq & Hpix).
  exists image. split; [done|].
  rewrite (Hpix x y Hx Hy). unfold layer_stack. cbv zeta.
  split; [|split].
  - by intros ->.
  - by intros -> ->.
  - intros -> -> -> -> Hout.
    destruct (getpixel inner _ _) as [g|] eqn:Hg.
    { pose proof (square_width _ _ Hinsq) as Hw.
      pose proof (square_height _ _ Hinsq) as Hh.
      destruct Hinsq as [_ Hwf].
      apply (getpixel_wf_inv _ _ _ _ Hwf) in Hg. lia. }
    destruct (getpixel bg x y); [|done].
    by rewrite blend_pixel_masked_out.
Qed.

Lemma composition_visible_layer_witness :
  0 <= 10 < 20 /\
  exists image,
    draw_icon_layers (H:=box_rasterizer) init 20 = Ok image /\
    getpixel image 10 10 = Some (255, 255, 255, 77).
Proof.
  assert (0 <= 10 < 20) as Hb by lia.
  split; [exact Hb|].
  destruct (@composition_visible_layer box_rasterizer init 20 10 10 eq_refl Hb Hb)
    as (image & Hrun & _ & Hbadge & _).
  exists image. split; [exact Hrun|].
  rewrite Hbadge; vm_compute; reflexivity.
Defined.

(** ** The palette as the composer reads it *)

(** X6.  A palette entry that is missing is reported by name: on every size
    that is not negative, the composer raises [KeyError] for
    [primary_blue], the highlight overlay for [highlight_white] and the
    shadow for [shadow_gray], and no image is returned. *)
Theorem missing_palette_key `{Rasterizer} (self : CircleIconGenerator)
    (size : Z) :
  0 <= size ->
  (colors self !! "primary_blue" = None ->
     create_circle_with_checkmark self size = Raise (KeyError "primary_blue")) /\
  (colors self !! "highlight_white" = None ->
     create_highlight_overlay self size = Raise (KeyError "highlight_white")) /\
  (colors self !! "shadow_gray" = None ->
     create_shadow self size = Raise (KeyError "shadow_gray")).
Proof.
  intros Hsize.
  destruct (Image_new_square (P:=pixel) size (0, 0, 0, 0) Hsize) as (img & Hnew & _).
  split; [|split].
  - intros Hkey. unfold create_circle_with_checkmark, draw_icon_layers. cbv zeta.
    rewrite (bind_Ok _ _ _ Hnew). cbv beta. unfold getitem. rewrite Hkey.
    reflexivity.
  - intros Hkey. unfold create_highlight_overlay.
    rewrite (bind_Ok _ _ _ Hnew). cbv zeta. unfold getitem. by rewrite Hkey.
  - intros Hkey. unfold create_shadow. cbv zeta.
    assert (0 <= int_scaled size 1.1%float) as Hs by (by apply int_scaled_nonneg).
    destruct (Image_new_square (P:=pixel) _ (0, 0, 0, 0) Hs) as (img' & Hnew' & _).
    rewrite (bind_Ok _ _ _ Hnew'). unfold getitem. by rewrite Hkey.
Qed.

Lemma missing_palette_key_witness :
  0 <= 20 /\
  create_circle_with_checkmark (H:=box_rasterizer)
    {| colors := delete "primary_blue" (colors init); icon_sizes := [] |} 20
  = Raise (KeyError "primary_blue") /\
  create_shadow (H:=box_rasterizer) {| colors := ∅; icon_sizes := [] |} 20
  = Raise (KeyError "shadow_gray").
Proof.
  assert (0 <= 20) as Hb by lia.
  split; [exact Hb|]. split.
  - destruct (@missing_palette_key box_rasterizer
                {| colors := delete "primary_blue" (colors init); icon_sizes := [] |}
                20 Hb) as (Hblue & _ & _).
    apply Hblue. vm_compute. reflexivity.
  - destruct (@missing_palette_key box_rasterizer
                {| colors := ∅; icon_sizes := [] |} 20 Hb) as (_ & _ & Hgray).
    apply Hgray. reflexivity.
Defined.

(** X7.  The composer reads five palette entries and nothing else of the
    generator object: two objects that agree on [primary_blue],
    [secondary_blue], [background_white], [highlight_white] and
    [shadow_gray] give the same result at every size, whatever their
    [accent_purple] and their size catalog. *)
Theorem composer_reads_five_colors `{Rasterizer} (g1 g2 : CircleIconGenerator)
    (size : Z) :
  (forall key,
     key ∈ ["primary_blue"; "secondary_blue"; "background_white";
            "highlight_white"; "shadow_gray"] ->
     colors g1 !! key = colors g2 !! key) ->
  create_circle_with_checkmark g1 size = create_circle_with_checkmark g2 size.
Proof.
  intros Hkeys.
  pose proof (Hkeys "primary_blue" ltac:(set_solver)) as Hb.
  pose proof (Hkeys "secondary_blue" ltac:(set_solver)) as Hs.
  pose proof (Hkeys "background_white" ltac:(set_solver)) as Hw.
  pose proof (Hkeys "highlight_white" ltac:(set_solver)) as Hh.
  pose proof (Hkeys "shadow_gray" ltac:(set_solver)) as Hg.
  unfold create_circle_with_checkmark, draw_icon_layers, create_shadow,
    create_highlight_overlay, inner_gradient, create_gradient_background,
    create_checkmark_path, getitem.
  by rewrite Hb, Hs, Hw, Hh, Hg.
Qed.

Lemma composer_reads_five_colors_witness :
  create_circle_with_checkmark (H:=box_rasterizer) init 20 =
  create_circle_with_checkmark (H:=box_rasterizer)
    {| colors := delete "accent_purple" (colors init); icon_sizes := [] |} 20.
Proof.
  apply (@composer_reads_five_colors box_rasterizer init
           {| colors := delete "accent_purple" (colors init); icon_sizes := [] |} 20).
  intros key Hkey.
  repeat (apply elem_of_cons in Hkey as [->|Hkey]; [vm_compute; reflexivity|]).
  by apply elem_of_nil in Hkey.
Defined.

(** ** The batch *)

Lemma for_each_app {A S} (l1 l2 : list A) (body : S -> A -> result S) (s : S) :
  for_each (l1 ++ l2) body s = (for_each l1 body s ≫= for_each l2 body).
Proof.
  revert s. induction l1 as [|x l1 IH]; intros s; simpl; [done|].
  destruct (body s x) as [s'|e]; simpl; [apply IH|done].
Qed.

Lemma create_circle_with_checkmark_negative `{Rasterizer} self (size : Z) :
  size < 0 ->
  create_circle_with_checkmark self size
  = Raise (ValueError "Width and height must be >= 0").
Proof.
  intros Hneg. unfold create_circle_with_checkmark, draw_icon_layers.
  by rewrite Image_new_negative by lia.
Qed.

Lemma os_path_join_inj (dir : string) : Inj (=) (=) (os_path_join dir).
Proof.
  intros n1 n2. unfold os_path_join.
  destruct (String.eqb dir ""); [done|].
  destruct (String.eqb _ "/"); intros Heq.
  - by apply (inj (String.app dir)) in Heq.
  - apply (inj (String.app dir)) in Heq. by apply (inj (String.app "/")) in Heq.
Qed.

Lemma prefix_app_l (n a b : string) :
  String.prefix n a = true -> String.prefix n (a +:+ b) = true.
Proof.
  revert a. induction n as [|c n IH]; intros a; [by destruct a, b|].
  destruct a as [|c' a]; simpl; [done|].
  destruct (Ascii.ascii_dec c c'); [apply IH|done].
Qed.

Lemma str_contains_app_l (n a b : string) :
  str_contains n a = true -> str_contains n (a +:+ b) = true.
Proof.
  induction a as [|c a IH]; simpl.
  - rewrite orb_false_r. intros Hp.
    destruct n; [by destruct b|done].
  - intros [Hp|Hc]%orb_true_iff; apply orb_true_iff.
    + left. by apply (prefix_app_l n (String c a) b).
    + right. by apply IH.
Qed.

Lemma os_path_join_contains (n dir name : string) :
  str_contains n dir = true -> str_contains n (os_path_join dir name) = true.
Proof.
  intros Hdir. unfold os_path_join.
  destruct (String.eqb dir "") eqn:Hempty.
  - apply String.eqb_eq in Hempty as ->.
    simpl in Hdir. rewrite orb_false_r in Hdir.
    destruct n; [by destruct name|done].
  - destruct (String.eqb _ "/"); by apply str_contains_app_l.
Qed.

(** [int] on a float whose truncation is not zero does not raise, nor does
    it on a factor of a product whose truncation is not zero. *)
Lemma int_checked_nonzero (f : float) :
  int_of_float f <> 0 -> int_checked f = Ok (int_of_float f).
Proof.
  unfold int_checked, int_of_float.
  by destruct (Prim2SF f) as [s|s| |s m e].
Qed.

Lemma int_checked_factor (f g : float) :
  int_of_float (PrimFloat.mul f g) <> 0 -> int_checked f = Ok (int_of_float f).
Proof.
  unfold int_of_float at 1. rewrite FloatAxioms.mul_spec.
  unfold SF64mul, SFmul, int_checked.
  destruct (Prim2SF f) as [sf|sf| |sf mf ef] eqn:Hf; [done| |done|done];
    by destruct (Prim2SF g).
Qed.

Lemma entry_int_checked (w : num) (s : Z) :
  actual_size w s <> 0 ->
  num_int_checked (num_mul w (NInt s)) = Ok (actual_size w s) /\
  exists z, num_int_checked w = Ok z.
Proof.
  unfold actual_size. destruct w as [a|f]; simpl.
  - eauto.
  - intros Hnz. split; [by apply int_checked_nonzero|].
    eexists. by apply (int_checked_factor f (float_of_Z s)).
Qed.

Section batch.
Context `{Rasterizer} {fs : FileSystem}.
Variable self : CircleIconGenerator.
Hypothesis palette : colors self = colors init.
Variable output_dir : string.

(** The files after the loop, when no entry raises. *)
Let written (files : gmap string (image pixel)) (l : list (num * num * Z)) :=
  foldl (fun fs e => <[entry_path output_dir e := rendered self (entry_size e)]> fs)
        files l.

(** An entry the loop gets through: a positive pixel size and a path that
    opens for writing. *)
Let passes (e : num * num * Z) : Prop :=
  0 < entry_size e /\ open_for_writing (entry_path output_dir e) = Ok tt.

Lemma rendered_Ok (size : Z) :
  0 <= size ->
  create_circle_with_checkmark self size = Ok (rendered self size) /\
  square size (rendered self size).
Proof.
  intros Hsize.
  destruct (create_circle_with_checkmark_Ok self palette size Hsize)
    as (_ & _ & final & _ & _ & _ & _ & Hfinal & Hsq & _).
  unfold rendered. by rewrite Hfinal.
Qed.

Lemma Image_save_Ok (size : Z) (icon : image pixel) (path : string) files :
  0 < size -> square size icon -> open_for_writing path = Ok tt ->
  Image_save icon path files = Ok (<[path := icon]> files).
Proof.
  intros Hsize Hsq Hopen. unfold Image_save. rewrite Hopen. simpl.
  rewrite (square_width _ _ Hsq), (square_height _ _ Hsq).
  by replace (size =? 0) with false by (symmetry; apply Z.eqb_neq; lia).
Qed.

Lemma generate_icon_Ok files (e : num * num * Z) :
  passes e ->
  generate_icon self output_dir files e =
  Ok (<[entry_path output_dir e := rendered self (entry_size e)]> files).
Proof.
  intros [Hsize Hopen]. destruct e as [[w h] s]. unfold generate_icon.
  unfold entry_size in Hsize; simpl in Hsize.
  destruct (entry_int_checked w s ltac:(lia)) as (Hint & z & Hname).
  rewrite Hint, Hname. simpl.
  destruct (rendered_Ok (actual_size w s) ltac:(lia)) as [Hrun Hsq].
  rewrite Hrun. simpl.
  by apply (Image_save_Ok (actual_size w s)).
Qed.

Lemma generate_loop files (l : list (num * num * Z)) :
  Forall passes l ->
  for_each l (generate_icon self output_dir) files = Ok (written files l).
Proof.
  revert files. induction l as [|e l IH]; intros files Hall; [done|].
  apply Forall_cons in Hall as [He Hl]. simpl.
  rewrite generate_icon_Ok by done. simpl. by apply IH.
Qed.

Lemma written_other files (l : list (num * num * Z)) (path : string) :
  path ∉ entry_path output_dir <$> l -> written files l !! path = files !! path.
Proof.
  revert files. induction l as [|e l IH]; intros files Hnot; [done|].
  rewrite fmap_cons, not_elem_of_cons in Hnot. destruct Hnot as [Hne Hnot].
  unfold written in *. simpl. rewrite IH by done. by rewrite lookup_insert_ne.
Qed.

Lemma written_last files (l1 l2 : list (num * num * Z)) (e : num * num * Z) :
  entry_path output_dir e ∉ entry_path output_dir <$> l2 ->
  written files (l1 ++ e :: l2) !! entry_path output_dir e
  = Some (rendered self (entry_size e)).
Proof.
  intros Hlast. unfold written. rewrite foldl_app. simpl.
  fold (written (<[entry_path output_dir e := rendered self (entry_size e)]>
                   (written files l1)) l2).
  rewrite written_other by done. apply lookup_insert_eq.
Qed.

Lemma written_dom files (l : list (num * num * Z)) :
  dom (written files l) = dom files ∪ list_to_set (entry_path output_dir <$> l).
Proof.
  revert files. induction l as [|e l IH]; intros files.
  - simpl. by rewrite (right_id_L ∅ (∪)).
  - unfold written in *. simpl. rewrite IH, dom_insert_L.
    by rewrite (comm_L (∪) {[_]} (dom files)), (assoc_L (∪)).
Qed.

Lemma passes_Forall (l : list (num * num * Z)) :
  Forall (fun e => 0 < entry_size e) l ->
  Forall (fun e => open_for_writing (entry_path output_dir e) = Ok tt) l ->
  Forall passes l.
Proof.
  intros Hsize Hopen. apply Forall_forall. intros e He.
  rewrite Forall_forall in Hsize, Hopen. split; auto.
Qed.

End batch.

(** X8.  [generate_all_icons] once the output directory is created, on any
    catalog whose pixel sizes are positive and whose paths open for writing:
    the batch returns, the paths it holds are the earlier ones and one per
    catalog entry, a path that no entry names keeps its earlier content, and
    the path of an entry holds the icon composed at that entry's pixel size,
    a square of that side, unless a later entry has the same path (the later
    one replaces it). *)
Theorem batch_writes `{Rasterizer} {fs : FileSystem} (self : CircleIconGenerator)
    (output_dir : string) (files : gmap string (image pixel)) :
  colors self = colors init ->
  os_makedirs output_dir = Ok tt ->
  Forall (fun e => 0 < entry_size e) (icon_sizes self) ->
  Forall (fun e => open_for_writing (entry_path output_dir e) = Ok tt)
         (icon_sizes self) ->
  exists files',
    generate_all_icons self output_dir files = Ok files' /\
    dom files' = dom files ∪ list_to_set (entry_path output_dir <$> icon_sizes self) /\
    (forall path, path ∉ entry_path output_dir <$> icon_sizes self ->
       files' !! path = files !! path) /\
    (forall l1 e l2, icon_sizes self = l1 ++ e :: l2 ->
       entry_path output_dir e ∉ entry_path output_dir <$> l2 ->
       exists icon,
         create_circle_with_checkmark self (entry_size e) = Ok icon /\
         im_size icon = (entry_size e, entry_size e) /\
         files' !! entry_path output_dir e = Some icon).
Proof.
  intros Hpal Hdir Hsizes Hopen. unfold generate_all_icons. rewrite Hdir. simpl.
  rewrite (generate_loop self Hpal output_dir files _
             (passes_Forall output_dir _ Hsizes Hopen)).
  eexists. split; [done|]. split; [apply written_dom|].
  split; [apply written_other|].
  intros l1 e l2 Hsplit Hlast.
  assert (0 < entry_size e) as He.
  { rewrite Forall_forall in Hsizes. apply Hsizes. rewrite Hsplit.
    apply elem_of_app. right. apply elem_of_cons. by left. }
  destruct (rendered_Ok self Hpal (entry_size e) ltac:(lia)) as [Hrun [Hsz _]].
  exists (rendered self (entry_size e)). split; [done|]. split; [done|].
  rewrite Hsplit. by apply written_last.
Qed.

Lemma batch_writes_witness :
  exists files',
    generate_all_icons (H:=box_rasterizer) (fs:=plain_fs)
      {| colors := colors init;
         icon_sizes := [(NInt 4, NInt 4, 2); (NInt 4, NInt 4, 2)] |}
      "out" ∅ = Ok files' /\
    dom files' = ∅ ∪ list_to_set ["out/AppIcon-4@2x.png"; "out/AppIcon-4@2x.png"].
Proof.
  destruct (@batch_writes box_rasterizer plain_fs
              {| colors := colors init;
                 icon_sizes := [(NInt 4, NInt 4, 2); (NInt 4, NInt 4, 2)] |}
              "out" ∅ eq_refl eq_refl) as (files' & Hrun & Hdom & _).
  { repeat constructor. }
  { repeat constructor. }
  exists files'. split; [exact Hrun|exact Hdom].
Defined.

Lemma catalog_paths_NoDup (output_dir : string) :
  NoDup (entry_path output_dir <$> icon_sizes init).
Proof.
  assert (NoDup ((fun e : num * num * Z => icon_filename e.1.1 e.2) <$> icon_sizes init))
    as Hnames by (apply (bool_decide_unpack _); vm_compute; exact I).
  pose proof (NoDup_fmap_2 (os_path_join output_dir)
                (Inj0:=os_path_join_inj output_dir) _ Hnames) as Hpaths.
  by rewrite <- list_fmap_compose in Hpaths.
Qed.

Lemma catalog_sizes_positive : Forall (fun e => 0 < entry_size e) (icon_sizes init).
Proof. repeat constructor. Qed.

(** The batch on the catalog of [__init__]: shared by the properties
    below. *)
Lemma batch_catalog_files `{Rasterizer} {fs : FileSystem}
    (self : CircleIconGenerator) (output_dir : string) :
  colors self = colors init -> icon_sizes self = icon_sizes init ->
  os_makedirs output_dir = Ok tt ->
  (forall path, open_for_writing path = Ok tt) ->
  exists files,
    generate_all_icons self output_dir ∅ = Ok files /\
    size files = 16%nat /\
    forall e, e ∈ icon_sizes init ->
      exists icon,
        files !! entry_path output_dir e = Some icon /\
        im_size icon = (entry_size e, entry_size e) /\
        create_circle_with_checkmark self (entry_size e) = Ok icon.
Proof.
  intros Hpal Hcat Hdir Hopen. unfold generate_all_icons.
  rewrite Hcat, Hdir, bind_Ok_val.
  rewrite (generate_loop self Hpal output_dir ∅ _
             (passes_Forall output_dir _ catalog_sizes_positive
                ltac:(apply Forall_forall; intros; apply Hopen))).
  eexists. split; [done|]. split.
  - rewrite <- size_dom, written_dom, dom_empty_L, (left_id_L ∅ (∪)).
    rewrite size_list_to_set by apply catalog_paths_NoDup.
    by rewrite length_fmap.
  - intros e Hin.
    apply list_elem_of_split in Hin as (l1 & l2 & Hsplit).
    pose proof (catalog_paths_NoDup output_dir) as Hnd.
    rewrite Hsplit, fmap_app, fmap_cons in Hnd.
    apply NoDup_app in Hnd as (_ & _ & Hnd). apply NoDup_cons in Hnd as [Hlast _].
    assert (0 < entry_size e) as He.
    { pose proof catalog_sizes_positive as Hall. rewrite Forall_forall in Hall.
      apply Hall. rewrite Hsplit. apply elem_of_app. right. apply elem_of_cons. by left. }
    destruct (rendered_Ok self Hpal (entry_size e) ltac:(lia)) as [Hrun [Hsz _]].
    exists (rendered self (entry_size e)).
    split; [|done]. rewrite Hsplit. by apply written_last.
Qed.

(** X9.  [generate_all_icons] on the catalog of [__init__], into an empty
    output directory that can be created and written to: the batch returns
    exactly 16 files, one per catalog entry, and the file of every entry is
    a square image whose side is the entry's pixel size. *)
Theorem batch_catalog `{Rasterizer} {fs : FileSystem} (self : CircleIconGenerator)
    (output_dir : string) :
  colors self = colors init -> icon_sizes self = icon_sizes init ->
  os_makedirs output_dir = Ok tt ->
  (forall path, open_for_writing path = Ok tt) ->
  exists files,
    generate_all_icons self output_dir ∅ = Ok files /\
    size files = 16%nat /\
    forall w h s, (w, h, s) ∈ icon_sizes init ->
      exists icon,
        files !! os_path_join output_dir (icon_filename w s) = Some icon /\
        im_size icon = (actual_size w s, actual_size w s).
Proof.
  intros Hpal Hcat Hdir Hopen.
  destruct (batch_catalog_files self output_dir Hpal Hcat Hdir Hopen)
    as (files & Hrun & Hsize & Hfiles).
  exists files. split; [done|]. split; [done|].
  intros w h s Hin. destruct (Hfiles (w, h, s) Hin) as (icon & Hicon & Hsz & _).
  eauto.
Qed.

Lemma batch_catalog_witness :
  exists files,
    generate_all_icons (H:=box_rasterizer) (fs:=plain_fs) init "out" ∅ = Ok files /\
    size files = 16%nat /\
    forall w h s, (w, h, s) ∈ icon_sizes init ->
      exists icon,
        files !! os_path_join "out" (icon_filename w s) = Some icon /\
        im_size icon = (actual_size w s, actual_size w s).
Proof.
  exact (@batch_catalog box_rasterizer plain_fs init "out" eq_refl eq_refl eq_refl
           (fun _ => eq_refl)).
Defined.

(** X10.  What stops the batch.  If the output directory cannot be created,
    the batch raises that error and composes nothing.  Otherwise, after
    entries that pass, an entry whose pixel size is negative raises the
    [ValueError] of the canvas allocation, and an entry of integer logical
    size whose pixel size is zero raises a [ValueError] when its empty image
    is saved; in both cases the entries after it are not composed. *)
Theorem batch_stops_at_bad_entry `{Rasterizer} {fs : FileSystem}
    (self : CircleIconGenerator) (output_dir : string)
    (files : gmap string (image pixel))
    (l1 l2 : list (num * num * Z)) (e : num * num * Z) :
  colors self = colors init ->
  icon_sizes self = l1 ++ e :: l2 ->
  (forall err, os_makedirs output_dir = Raise err ->
     generate_all_icons self output_dir files = Raise err) /\
  (os_makedirs output_dir = Ok tt ->
   Forall (fun e' => 0 < entry_size e') l1 ->
   Forall (fun e' => open_for_writing (entry_path output_dir e') = Ok tt) l1 ->
   (entry_size e < 0 ->
      generate_all_icons self output_dir files
      = Raise (ValueError "Width and height must be >= 0")) /\
   (forall w h s, e = (NInt w, h, s) -> w * s = 0 ->
      open_for_writing (entry_path output_dir e) = Ok tt ->
      exists msg,
        generate_all_icons self output_dir files = Raise (ValueError msg))).
Proof.
  intros Hpal Hcat. split.
  - intros err Hdir. unfold generate_all_icons. by rewrite Hdir.
  - intros Hdir Hsizes Hopen.
    assert (generate_all_icons self output_dir files =
            (generate_icon self output_dir
               (foldl (fun fs e' =>
                         <[entry_path output_dir e' := rendered self (entry_size e')]> fs)
                      files l1) e
             ≫= for_each l2 (generate_icon self output_dir))) as Hrun.
    { unfold generate_all_icons. rewrite Hdir, Hcat, for_each_app. simpl.
      by rewrite (generate_loop self Hpal output_dir files _
                    (passes_Forall output_dir _ Hsizes Hopen)). }
    rewrite Hrun. split.
    + intros Hneg. destruct e as [[w h] s]. unfold generate_icon.
      unfold entry_size in Hneg; simpl in Hneg.
      destruct (entry_int_checked w s ltac:(lia)) as (Hint & z & Hname).
      rewrite Hint, Hname. simpl.
      by rewrite create_circle_with_checkmark_negative.
    + intros w h s -> Hzero Hwrite. unfold generate_icon. simpl. rewrite Hzero.
      destruct (rendered_Ok self Hpal 0 ltac:(lia)) as [Hicon Hsq].
      rewrite Hicon. simpl. unfold Image_save.
      unfold entry_path in Hwrite; simpl in Hwrite. rewrite Hwrite. simpl.
      rewrite (square_width _ _ Hsq). simpl. eauto.
Qed.

Lemma batch_stops_at_bad_entry_witness :
  generate_all_icons (H:=box_rasterizer) (fs:=plain_fs) init "" ∅
  = Raise (OSError "[Errno 2] No such file or directory: ''") /\
  generate_all_icons (H:=box_rasterizer) (fs:=plain_fs)
    {| colors := colors init;
       icon_sizes := [(NInt 4, NInt 4, 1); (NInt 20, NInt 20, -1);
                      (NInt 4, NInt 4, 2)] |}
    "out" ∅
  = Raise (ValueError "Width and height must be >= 0") /\
  exists msg,
    generate_all_icons (H:=box_rasterizer) (fs:=plain_fs)
      {| colors := colors init;
         icon_sizes := [(NInt 4, NInt 4, 1); (NInt 0, NInt 0, 1)] |}
      "out" ∅
    = Raise (ValueError msg).
Proof.
  split; [|split].
  - destruct (@batch_stops_at_bad_entry box_rasterizer plain_fs init "" ∅
                [] (skipn 1 (icon_sizes init)) (NInt 20, NInt 20, 1)
                eq_refl eq_refl) as [Hdir _].
    exact (Hdir _ eq_refl).
  - destruct (@batch_stops_at_bad_entry box_rasterizer plain_fs
                {| colors := colors init;
                   icon_sizes := [(NInt 4, NInt 4, 1); (NInt 20, NInt 20, -1);
                                  (NInt 4, NInt 4, 2)] |}
                "out" ∅ [(NInt 4, NInt 4, 1)] [(NInt 4, NInt 4, 2)]
                (NInt 20, NInt 20, -1) eq_refl eq_refl) as [_ Hstop].
    destruct Hstop as [Hneg _]; [reflexivity|repeat constructor..|].
    exact (Hneg eq_refl).
  - destruct (@batch_stops_at_bad_entry box_rasterizer plain_fs
                {| colors := colors init;
                   icon_sizes := [(NInt 4, NInt 4, 1); (NInt 0, NInt 0, 1)] |}
                "out" ∅ [(NInt 4, NInt 4, 1)] [] (NInt 0, NInt 0, 1)
                eq_refl eq_refl) as [_ Hstop].
    destruct Hstop as [_ Hzero]; [reflexivity|repeat constructor..|].
    exact (Hzero 0 (NInt 0) 1 eq_refl eq_refl eq_refl).
Defined.

(** ** The batch under the validator *)

(** X11.  The files of the catalog of [__init__], written into an empty
    output directory that can be created and written to, and read back as
    saved, under [validate_icon]: the store icon is always valid; each other
    icon is valid exactly when the text 1024 does not occur in its full
    path, and is otherwise rejected as a store icon that is too small.  So
    under an output directory whose name contains 1024 the fifteen other
    icons are all rejected. *)
Theorem batch_validation `{Rasterizer} {fs : FileSystem}
    (self : CircleIconGenerator) (output_dir : string) :
  colors self = colors init -> icon_sizes self = icon_sizes init ->
  os_makedirs output_dir = Ok tt ->
  (forall path, open_for_writing path = Ok tt) ->
  exists files,
    generate_all_icons self output_dir ∅ = Ok files /\
    forall Image_open, reads_back files Image_open ->
      validate_icon Image_open self
        (os_path_join output_dir (icon_filename (NInt 1024) 1))
      = Ok (true, "Icon is valid") /\
      (forall w h s, (w, h, s) ∈ icon_sizes init -> num_eqb w (NInt 1024) = false ->
         validate_icon Image_open self (os_path_join output_dir (icon_filename w s))
         = Ok (if str_contains "1024" (os_path_join output_dir (icon_filename w s))
               then (false, "App Store icon must be at least 1024x1024")
               else (true, "Icon is valid"))) /\
      (names_1024 output_dir ->
       forall w h s, (w, h, s) ∈ icon_sizes init -> num_eqb w (NInt 1024) = false ->
         validate_icon Image_open self (os_path_join output_dir (icon_filename w s))
         = Ok (false, "App Store icon must be at least 1024x1024")).
Proof.
  intros Hpal Hcat Hdir Hopen.
  destruct (batch_catalog_files self output_dir Hpal Hcat Hdir Hopen)
    as (files & Hrun & _ & Hfiles).
  exists files. split; [done|]. intros Image_open Hread.
  assert (forall w h s, (w, h, s) ∈ icon_sizes init ->
            validate_icon Image_open self (os_path_join output_dir (icon_filename w s))
            = Ok (if (actual_size w s <? 1024) &&
                     str_contains "1024" (os_path_join output_dir (icon_filename w s))
                  then (false, "App Store icon must be at least 1024x1024")
                  else (true, "Icon is valid"))) as Hrule.
  { intros w h s Hin. destruct (Hfiles (w, h, s) Hin) as (icon & Hicon & Hsz & _).
    unfold entry_path, entry_size in Hicon, Hsz; simpl in Hicon, Hsz.
    rewrite (validate_icon_opened Image_open self _ _ (actual_size w s)
               (actual_size w s) (Hread _ _ Hicon)) by (by rewrite <- Hsz).
    by rewrite Z.eqb_refl. }
  assert (forall w h s, (w, h, s) ∈ icon_sizes init -> num_eqb w (NInt 1024) = false ->
            (actual_size w s <? 1024) = true) as Hsmall.
  { intros w h s Hin Hne. catalog_cases Hin;
      first [ vm_compute; reflexivity | vm_compute in Hne; discriminate Hne ]. }
  split; [|split].
  - rewrite (Hrule (NInt 1024) (NInt 1024) 1)
      by (apply list_elem_of_In; simpl; tauto).
    done.
  - intros w h s Hin Hne. by rewrite (Hrule w h s Hin), (Hsmall w h s Hin Hne).
  - intros Hdir' w h s Hin Hne.
    rewrite (Hrule w h s Hin), (Hsmall w h s Hin Hne).
    by rewrite (os_path_join_contains _ _ _ Hdir').
Qed.

Lemma batch_validation_witness :
  exists files,
    generate_all_icons (H:=box_rasterizer) (fs:=plain_fs) init
      "/Users/mac/CircleOne/Circle/Resources/AppIcon.appiconset" ∅ = Ok files /\
    forall Image_open, reads_back files Image_open ->
      validate_icon Image_open init
        "/Users/mac/CircleOne/Circle/Resources/AppIcon.appiconset/AppIcon-1024.png"
      = Ok (true, "Icon is valid") /\
      validate_icon Image_open init
        "/Users/mac/CircleOne/Circle/Resources/AppIcon.appiconset/AppIcon-20@2x.png"
      = Ok (true, "Icon is valid").
Proof.
  destruct (@batch_validation box_rasterizer plain_fs init
              "/Users/mac/CircleOne/Circle/Resources/AppIcon.appiconset"
              eq_refl eq_refl eq_refl (fun _ => eq_refl)) as (files & Hrun & Hval).
  exists files. split; [exact Hrun|].
  intros Image_open Hread. destruct (Hval Image_open Hread) as (Hstore & Hrest & _).
  split; [exact Hstore|].
  exact (Hrest (NInt 20) (NInt 20) 2
           ltac:(apply list_elem_of_In; simpl; tauto) eq_refl).
Defined.

(** ** The channels of the two gradients *)

Lemma gradient_between_table :
  forallb (fun size =>
             gradient_between (RGB 0 122 255) (RGB 0 89 204)
               (0, 89, 204, 255) (0, 122, 255, 255) size &&
             gradient_between (RGBA 0 122 255 25) (RGBA 128 0 255 25)
               (0, 0, 254, 255) (127, 122, 255, 255) size)
          (seqZ 1 180 ++ [409; 1024]) = true.
Proof. vm_compute. reflexivity. Qed.

(** X12.  The channels the two gradients of the composer store are bytes.
    On every side from 1 to 180, and on 409 and 1024 (the sides the catalog
    leads to), every pixel of the background gradient is (0, g, b, 255) with
    89 <= g <= 122 and 204 <= b <= 255, and every pixel of the gradient
    rendered from the inner layer's colours is (r, g, b, 255) with
    0 <= r <= 127, 0 <= g <= 122 and 254 <= b <= 255: its red never reaches
    the 128 of the end colour, and its blue, 255 at both ends, drops to 254
    on some rows. *)
Theorem gradient_channels_are_bytes self (size x y : Z) :
  0 < size <= 180 \/ size = 409 \/ size = 1024 ->
  0 <= x < size -> 0 <= y < size ->
  exists bg inner pb pi,
    create_gradient_background self size (RGB 0 122 255) (RGB 0 89 204) = Ok bg /\
    getpixel bg x y = Some pb /\
    red pb = 0 /\ 89 <= green pb <= 122 /\ 204 <= blue pb <= 255 /\
    alpha pb = 255 /\
    create_gradient_background self size (RGBA 0 122 255 25) (RGBA 128 0 255 25)
    = Ok inner /\
    getpixel inner x y = Some pi /\
    0 <= red pi <= 127 /\ 0 <= green pi <= 122 /\ 254 <= blue pi <= 255 /\
    alpha pi = 255.
Proof.
  intros Hsize Hx Hy.
  destruct (create_gradient_background_Ok self size (RGB 0 122 255) (RGB 0 89 204)
              ltac:(lia)) as (bg & Hbg & _ & _ & _ & Hbpix).
  destruct (create_gradient_background_Ok self size (RGBA 0 122 255 25)
              (RGBA 128 0 255 25) ltac:(lia)) as (inner & Hin & _ & _ & _ & Hipix).
  exists bg, inner. eexists _, _.
  split; [done|]. split; [by apply Hbpix|].
  pose proof gradient_between_table as Ht. rewrite forallb_forall in Ht.
  specialize (Ht size). rewrite <- list_elem_of_In, elem_of_app, elem_of_seqZ in Ht.
  specialize (Ht ltac:(destruct Hsize as [?|[->| ->]];
                       [left; lia|right; apply elem_of_cons; by left
                       |right; apply elem_of_cons; right; apply elem_of_cons; by left])).
  apply andb_prop in Ht as [Hb Hi]. unfold gradient_between in Hb, Hi.
  rewrite forallb_forall in Hb, Hi.
  specialize (Hb y). specialize (Hi y).
  rewrite <- list_elem_of_In, elem_of_seqZ in Hb, Hi.
  specialize (Hb ltac:(lia)). specialize (Hi ltac:(lia)).
  unfold pixel_between in Hb, Hi.
  repeat (apply andb_prop in Hb as [Hb ?]). repeat (apply andb_prop in Hi as [Hi ?]).
  repeat match goal with Hle : (_ <=? _) = true |- _ => apply Z.leb_le in Hle end.
  cbn [red green blue alpha fst snd] in *.
  split; [lia|]. split; [lia|]. split; [lia|]. split; [lia|].
  split; [done|]. split; [by apply Hipix|].
  split; [lia|]. split; [lia|]. split; lia.
Qed.

Lemma gradient_channels_are_bytes_witness :
  exists bg inner pb pi,
    create_gradient_background init 7 (RGB 0 122 255) (RGB 0 89 204) = Ok bg /\
    getpixel bg 0 3 = Some pb /\
    red pb = 0 /\ 89 <= green pb <= 122 /\ 204 <= blue pb <= 255 /\
    alpha pb = 255 /\
    create_gradient_background init 7 (RGBA 0 122 255 25) (RGBA 128 0 255 25)
    = Ok inner /\
    getpixel inner 0 3 = Some pi /\
    0 <= red pi <= 127 /\ 0 <= green pi <= 122 /\ 254 <= blue pi <= 255 /\
    alpha pi = 255.
Proof.
  apply (gradient_channels_are_bytes init 7 0 3); [left; lia|lia|lia].
Defined.

(** ** The shadow under the composition *)

(** X13.  The shadow never shows through an opaque pixel: wherever the
    composition's pixel has alpha 255 (and 8-bit channels), the returned
    image holds exactly that pixel, whatever the shadow layer is there. *)
Theorem opaque_pixels_kept `{Rasterizer} (self : CircleIconGenerator)
    (size x y : Z) :
  colors self = colors init -> 0 <= x < size -> 0 <= y < size ->
  exists image final,
    draw_icon_layers self size = Ok image /\
    create_circle_with_checkmark self size = Ok final /\
    forall i, getpixel image x y = Some i ->
      alpha i = 255 ->
      0 <= red i <= 255 -> 0 <= green i <= 255 -> 0 <= blue i <= 255 ->
      getpixel final x y = Some i.
Proof.
  intros Hpal Hx Hy.
  destruct (create_circle_with_checkmark_Ok self Hpal size ltac:(lia))
    as (image & shadow & final & Hi & _ & _ & _ & Hf & _ & Hpix).
  exists image, final. split; [done|]. split; [done|].
  intros i Hget Ha Hr Hg Hb.
  destruct (Hpix x y Hx Hy) as (i' & Hget' & Hfinal).
  rewrite Hget in Hget'. injection Hget' as <-.
  rewrite Hfinal. f_equal.
  destruct i as [[[r g] b] a]. cbn [red green blue alpha fst snd] in *. subst a.
  destruct (match getpixel shadow x y with Some _ => _ | None => _ end)
    as [[[r0 g0] b0] a0].
  unfold blend_pixel. by rewrite !BLEND_opaque by lia.
Qed.

Lemma opaque_pixels_kept_witness :
  exists image final,
    draw_icon_layers (H:=box_rasterizer) init 10 = Ok image /\
    create_circle_with_checkmark (H:=box_rasterizer) init 10 = Ok final /\
    getpixel image 0 0 = Some (0, 122, 255, 255) /\
    getpixel final 0 0 = Some (0, 122, 255, 255).
Proof.
  destruct (@opaque_pixels_kept box_rasterizer init 10 0 0 eq_refl
              ltac:(lia) ltac:(lia)) as (image & final & Hi & Hf & Hkept).
  exists image, final. split; [exact Hi|]. split; [exact Hf|].
  assert (getpixel image 0 0 = Some (0, 122, 255, 255)) as Hget.
  { revert Hi. vm_compute draw_icon_layers. intros [= <-]. reflexivity. }
  split; [exact Hget|].
  apply (Hkept _ Hget); cbn; lia.
Defined.
